(** * Quantum autoencoder for fraud detection: circuit, training loop, scoring

    A shallow embedding of the notebook [QAE_Fraud_Detection.ipynb] in exact
    real arithmetic.  The notebook queues gate operations on a simulator
    device ([qml.RX], [qml.RY], [qml.RZ], [qml.CNOT], [qml.AngleEmbedding],
    [qml.expval (qml.PauliZ _)]); here the queue is a list of operations (a
    tape) and the device is a function from tapes to state vectors. *)

From Stdlib Require Import Reals Lra Lia List Arith PeanoNat Bool.
From Stdlib Require Import Permutation FunctionalExtensionality.
Import ListNotations.

Local Open Scope R_scope.

(** ** Complex amplitudes *)

Record C : Type := mkC { Re : R; Im : R }.

Definition C0 : C := mkC 0 0.
Definition C1 : C := mkC 1 0.
Definition RtoC (r : R) : C := mkC r 0.
Definition Cadd (a b : C) : C := mkC (Re a + Re b) (Im a + Im b).
Definition Cmul (a b : C) : C :=
  mkC (Re a * Re b - Im a * Im b) (Re a * Im b + Im a * Re b).
Definition Cscal (r : R) (a : C) : C := mkC (r * Re a) (r * Im a).
(** Squared magnitude |a|^2. *)
Definition Cnorm2 (a : C) : R := Re a * Re a + Im a * Im a.
(** Real part of [a * conj b]. *)
Definition Cdot (a b : C) : R := Re a * Re b + Im a * Im b.

(** ** Finite sums over an index range *)

Definition sum_list (l : list R) : R := fold_right Rplus 0 l.

(** [Rsum f N] is f 0 + ... + f (N-1). *)
Definition Rsum (f : nat -> R) (N : nat) : R := sum_list (map f (seq 0 N)).

(** ** Basis-state indices as bit strings *)

(** Index with bit [p] flipped. *)
Definition flip (p i : nat) : nat := Nat.lxor i (2 ^ p).

(** ** Gate library and state-vector engine

    The notebook calls the simulator's gates; their matrices are the
    standard ones.  A register of [n] wires has the state vector indexed by
    [0 .. 2^n - 1]; wire 0 is the most significant bit of the index. *)

(** State vector: amplitude of each basis index (only indices below [2^n]
    are part of the array). *)
Definition State : Type := nat -> C.

(** 2x2 complex matrix, row-major. *)
Record Mat2 : Type := mkMat2 { m00 : C; m01 : C; m10 : C; m11 : C }.

(** Modelled from the spec: the gate matrices of the simulation library,
    which the notebook only calls ([qml.RX], [qml.RY], [qml.RZ]); section 4.1
    gives them through cos(theta/2) and sin(theta/2), RZ as a diagonal phase
    matrix.  RX(theta) = exp(-i theta X / 2): cos(theta/2) on the diagonal,
    -i sin(theta/2) off it. *)
Definition RX_matrix (theta : R) : Mat2 :=
  mkMat2 (RtoC (cos (theta / 2))) (mkC 0 (- sin (theta / 2)))
         (mkC 0 (- sin (theta / 2))) (RtoC (cos (theta / 2))).

(** Modelled from the spec: RY(theta) = exp(-i theta Y / 2), a real
    rotation matrix. *)
Definition RY_matrix (theta : R) : Mat2 :=
  mkMat2 (RtoC (cos (theta / 2))) (RtoC (- sin (theta / 2)))
         (RtoC (sin (theta / 2))) (RtoC (cos (theta / 2))).

(** Modelled from the spec: RZ(theta) = diag(exp(-i theta/2),
    exp(i theta/2)). *)
Definition RZ_matrix (theta : R) : Mat2 :=
  mkMat2 (mkC (cos (theta / 2)) (- sin (theta / 2))) C0
         C0 (mkC (cos (theta / 2)) (sin (theta / 2))).

(** Imaginary part of [conj a * b]. *)
Definition Ccross (a b : C) : R := Re a * Im b - Im a * Re b.

(** A 2x2 matrix is unitary: its columns are orthonormal. *)
Definition unitary2 (U : Mat2) : Prop :=
  Cnorm2 (m00 U) + Cnorm2 (m10 U) = 1 /\
  Cnorm2 (m01 U) + Cnorm2 (m11 U) = 1 /\
  Cdot (m00 U) (m01 U) + Cdot (m10 U) (m11 U) = 0 /\
  Ccross (m00 U) (m01 U) + Ccross (m10 U) (m11 U) = 0.

(** Bit of the index that wire [w] of an [n]-wire register occupies. *)
Definition bitpos (n w : nat) : nat := (n - 1 - w)%nat.

(** Modelled from the spec: [Initialize(n)], amplitude 1 at index 0, else 0. *)
Definition init_state : State :=
  fun i => if (i =? 0)%nat then C1 else C0.

(** Modelled from the spec: [ApplySingleQubitGate(state, 2x2 unitary, wire)].
    The new amplitude at [i] combines the old amplitudes at [i] and at its
    partner index with the wire's bit flipped. *)
Definition apply_1q (n : nat) (U : Mat2) (w : nat) (psi : State) : State :=
  fun i =>
    let p := bitpos n w in
    if Nat.testbit i p
    then Cadd (Cmul (m10 U) (psi (flip p i))) (Cmul (m11 U) (psi i))
    else Cadd (Cmul (m00 U) (psi i)) (Cmul (m01 U) (psi (flip p i))).

(** Index map of the controlled flip on control bit [pc], target bit [pt]. *)
Definition cnot_index (pc pt i : nat) : nat :=
  if Nat.testbit i pc then flip pt i else i.

(** Modelled from the spec: [ApplyControlledFlip(state, control, target)]
    exchanges the amplitude pairs whose control bit is 1, flipping the
    target bit. *)
Definition apply_cnot (n c t : nat) (psi : State) : State :=
  fun i =>
    if Nat.testbit i (bitpos n c) then psi (flip (bitpos n t) i) else psi i.

(** Modelled from the spec: [Expectation(state, wire)], the sum of
    |amp|^2 * (+1 if wire-bit = 0 else -1). *)
Definition Zsign (p i : nat) : R := if Nat.testbit i p then -1 else 1.

Definition expval_PauliZ (n w : nat) (psi : State) : R :=
  Rsum (fun i => Zsign (bitpos n w) i * Cnorm2 (psi i)) (2 ^ n).

(** Sum of squared amplitude magnitudes. *)
Definition norm2 (n : nat) (psi : State) : R :=
  Rsum (fun i => Cnorm2 (psi i)) (2 ^ n).

(** Operations the notebook queues. *)
Inductive Op : Type :=
| RX (theta : R) (wire : nat)
| RY (theta : R) (wire : nat)
| RZ (theta : R) (wire : nat)
| CNOT (control target : nat).

Definition apply_op (n : nat) (o : Op) (psi : State) : State :=
  match o with
  | RX theta w => apply_1q n (RX_matrix theta) w psi
  | RY theta w => apply_1q n (RY_matrix theta) w psi
  | RZ theta w => apply_1q n (RZ_matrix theta) w psi
  | CNOT c t => apply_cnot n c t psi
  end.

(** The device runs a tape gate by gate, first queued first applied. *)
Definition exec (n : nat) (tape : list Op) (psi : State) : State :=
  fold_left (fun s o => apply_op n o s) tape psi.

(** An operation the device accepts on [n] wires. *)
Definition valid_op (n : nat) (o : Op) : Prop :=
  match o with
  | RX _ w | RY _ w | RZ _ w => (w < n)%nat
  | CNOT c t => (c < n)%nat /\ (t < n)%nat /\ c <> t
  end.

(** ** Errors *)

Inductive Exn : Type := ValueError.

Inductive Result (A : Type) : Type :=
| Ok (a : A)
| Raise (e : Exn).
Arguments Ok {A} a.
Arguments Raise {A} e.

Definition bind {A B} (r : Result A) (k : A -> Result B) : Result B :=
  match r with
  | Ok a => k a
  | Raise e => Raise e
  end.

Notation "x <- c1 ;; c2" := (bind c1 (fun x => c2))
  (at level 61, c1 at next level, right associativity).

(** ** The circuit of the notebook *)

(** Sample: the feature vector of one transaction. *)
Definition Sample : Type := list R.

(** Parameter tensor indexed by (layer, qubit, rotation axis). *)
Definition Tensor : Type := nat -> nat -> nat -> R.

Section Circuit.

(** Number of qubits and of variational layers (4 and 4 in the notebook).
    The ring of CNOTs needs two distinct wires, so the theorems take
    [n_qubits] at least 2. *)
Variable n_qubits : nat.
Variable L : nat.

(** [qae_layer]: RX, RY, RZ on every wire, then the ring of CNOTs. *)
Definition qae_layer (theta : nat -> nat -> R) : list Op :=
  flat_map (fun w => [RX (theta w 0%nat) w; RY (theta w 1%nat) w;
                      RZ (theta w 2%nat) w]) (seq 0 n_qubits)
  ++ map (fun w => CNOT w ((w + 1) mod n_qubits)) (seq 0 n_qubits).

(** [qml.AngleEmbedding(features=x, wires=range(n_qubits), rotation="Y")]:
    one RY per feature, on the wire of the same index. *)
Definition AngleEmbedding (x : Sample) : list Op :=
  map (fun i => RY (nth i x 0) i) (seq 0 (length x)).

(** Gates of [qae_circuit] in queue order. *)
Definition qae_tape (x : Sample) (weights : Tensor) : list Op :=
  AngleEmbedding x ++ flat_map (fun l => qae_layer (weights l)) (seq 0 L).

(** Value of [qae_circuit] when the device accepts the tape. *)
Definition forward (x : Sample) (weights : Tensor) : R :=
  expval_PauliZ n_qubits (n_qubits - 1)
    (exec n_qubits (qae_tape x weights) init_state).

(** [qae_circuit]: the embedding refuses more features than wires.  The
    definition stands for registers of at least two wires, where the device
    accepts every gate of the tape; with fewer wires the ring's CNOT has no
    two distinct wires and the device refuses it, which is not modelled. *)
Definition qae_circuit (x : Sample) (weights : Tensor) : Result R :=
  if (length x <=? n_qubits)%nat then Ok (forward x weights)
  else Raise ValueError.

End Circuit.

(** Parameter tensor with entry (l, q, a) replaced by [v], all other entries
    held fixed. *)
Definition upd (w : Tensor) (l q a : nat) (v : R) : Tensor :=
  fun l' q' a' =>
    if ((l' =? l)%nat && (q' =? q)%nat && (a' =? a)%nat)%bool then v
    else w l' q' a'.

(** Rotation gate of axis [a] (0 for X, 1 for Y, 2 for Z), the gate that
    parameter (l, q, a) of the tensor feeds. *)
Definition rot (a : nat) (v : R) (q : nat) : Op :=
  match a with
  | 0%nat => RX v q
  | 1%nat => RY v q
  | _ => RZ v q
  end.

(** Generator part of a rotation: R(v) = cos(v/2) I + sin(v/2) K, with
    K = -i X, -i Y, -i Z. *)
Definition gen_matrix (a : nat) : Mat2 :=
  match a with
  | 0%nat => mkMat2 C0 (mkC 0 (-1)) (mkC 0 (-1)) C0
  | 1%nat => mkMat2 C0 (RtoC (-1)) (RtoC 1) C0
  | _ => mkMat2 (mkC 0 (-1)) C0 C0 (mkC 0 1)
  end.

(** Real linear combination of two state vectors. *)
Definition lin (a : R) (phi : State) (b : R) (chi : State) : State :=
  fun i => Cadd (Cscal a (phi i)) (Cscal b (chi i)).

(** Z-weighted real inner product of two state vectors on wire [w]. *)
Definition Zform (n w : nat) (phi chi : State) : R :=
  Rsum (fun i => Zsign (bitpos n w) i * Cdot (phi i) (chi i)) (2 ^ n).

(** ** Loops that may raise *)

Fixpoint mapM {A B} (f : A -> Result B) (l : list A) : Result (list B) :=
  match l with
  | [] => Ok []
  | a :: t => b <- f a ;; bs <- mapM f t ;; Ok (b :: bs)
  end.

Fixpoint foldM {S A} (f : S -> A -> Result S) (l : list A) (s : S)
  : Result S :=
  match l with
  | [] => Ok s
  | a :: t => s' <- f s a ;; foldM f t s'
  end.

(** Python's [range(start, stop, step)] for a step that is not negative; a
    zero step raises. *)
Definition py_range (start stop step : nat) : Result (list nat) :=
  if (step =? 0)%nat then Raise ValueError
  else Ok (map (fun k => (start + k * step)%nat)
               (seq 0 ((stop - start + step - 1) / step))).

(** Python's slice [l[a:b]]: cut at the end of the list. *)
Definition slice {A} (l : list A) (a b : nat) : list A :=
  firstn (b - a) (skipn a l).

(** [pnp.stack] refuses an empty list of arrays. *)
Definition stack (l : list R) : Result (list R) :=
  match l with
  | [] => Raise ValueError
  | _ => Ok l
  end.

Definition mean (l : list R) : R := sum_list l / INR (length l).

(** ** Cost function and training loop *)

Section Training.

Variable n_qubits : nat.
Variable L : nat.

(** [cost_fn]: mean reconstruction error 1 - (1 + <Z>)/2 over the batch. *)
Definition cost_fn (weights : Tensor) (X_batch : list Sample) : Result R :=
  expvals <- mapM (fun sample => qae_circuit n_qubits L sample weights)
                  X_batch ;;
  let fidelities := map (fun e => (1 + e) / 2) expvals in
  let errors := map (fun f => 1 - f) fidelities in
  stacked <- stack errors ;;
  Ok (mean stacked).

(** The optimizer is the library's; the loop only calls its [step] with the
    batch cost and the current weights. *)
Variable OptState : Type.
Variable opt_step :
  OptState -> (Tensor -> Result R) -> Tensor -> Result (Tensor * OptState).

Record TrainState : Type := mkTrainState {
  weights_of : Tensor;
  opt_of : OptState;
  (** lines printed so far: epoch number and reported loss *)
  printed : list (nat * R)
}.

(** [batch_iter = range(0, len(X_train_4d), batch_size)]. *)
Definition batch_iter (X_train : list Sample) (batch_size : nat)
  : Result (list nat) :=
  py_range 0 (length X_train) batch_size.

(** [X_batch = X_train_4d[idx : idx + batch_size]]. *)
Definition X_batch_at (X_train : list Sample) (batch_size idx : nat)
  : list Sample :=
  slice X_train idx (idx + batch_size).

(** Mini-batches the inner loop of epoch [epoch] visits, in order. *)
Definition epoch_batches (epoch : nat) (X_train : list Sample)
    (batch_size : nat) : Result (list (list Sample)) :=
  idxs <- batch_iter X_train batch_size ;;
  Ok (map (X_batch_at X_train batch_size) idxs).

(** One optimisation step on one mini-batch. *)
Definition batch_step (st : TrainState) (X_batch : list Sample)
  : Result TrainState :=
  r <- opt_step (opt_of st) (fun w => cost_fn w X_batch) (weights_of st) ;;
  Ok (mkTrainState (fst r) (snd r) (printed st)).

(** Body of the epoch loop: all mini-batches, then the monitoring loss on
    the leading slice. *)
Definition train_epoch (X_train : list Sample) (batch_size : nat)
    (st : TrainState) (epoch : nat) : Result TrainState :=
  batches <- epoch_batches epoch X_train batch_size ;;
  st' <- foldM batch_step batches st ;;
  train_loss <- cost_fn (weights_of st') (slice X_train 0 batch_size) ;;
  Ok (mkTrainState (weights_of st') (opt_of st')
                   (printed st' ++ [((epoch + 1)%nat, train_loss)])).

(** [for epoch in range(epochs): ...] *)
Definition train (epochs : nat) (X_train : list Sample) (batch_size : nat)
    (st : TrainState) : Result TrainState :=
  foldM (train_epoch X_train batch_size) (seq 0 epochs) st.

End Training.

(** ** Scoring and evaluation *)

(** [(qae_circuit(x, weights) + 1) / 2]. *)
Definition fidelity (n_qubits L : nat) (weights : Tensor) (x : Sample)
  : Result R :=
  e <- qae_circuit n_qubits L x weights ;; Ok ((e + 1) / 2).

Definition p0_test (n_qubits L : nat) (weights : Tensor)
    (X_test : list Sample) : Result (list R) :=
  mapM (fidelity n_qubits L weights) X_test.

(** One entry of [(p0_test < T).astype(int)]. *)
Definition flag (p T : R) : bool := if Rlt_dec p T then true else false.

Definition y_pred (p0 : list R) (T : R) : list bool :=
  map (fun p => flag p T) p0.

(** Number of samples with true label [t] and predicted label [p]. *)
Definition count_pairs (t p : bool) (y_true y_hat : list bool) : nat :=
  length (filter (fun tp => Bool.eqb (fst tp) t && Bool.eqb (snd tp) p)
                 (combine y_true y_hat)).

(** Value of a floating-point computation: a number, or what a quotient by
    zero leaves (numpy gives nan or inf there, with a warning, and no
    exception); products and square roots of such a value are again not
    finite. *)
Inductive Val : Type :=
| Num (r : R)
| NonFinite.

(** numpy's quotient [a / b] of two counts. *)
Definition np_div (a b : nat) : Val :=
  if (b =? 0)%nat then NonFinite else Num (INR a / INR b).

Definition Vmul (a b : Val) : Val :=
  match a, b with
  | Num x, Num y => Num (x * y)
  | _, _ => NonFinite
  end.

Definition Vsqrt (a : Val) : Val :=
  match a with
  | Num x => Num (sqrt x)
  | NonFinite => NonFinite
  end.

(** Modelled from the spec: a ratio of counts of the scoring library, with
    the value [zero_division] when the denominator is 0 (section 4.7: every
    ratio is defined as 0 when its denominator is 0; the notebook passes
    [zero_division=0]). *)
Definition ratio (zero_division : R) (num den : nat) : Val :=
  if (den =? 0)%nat then Num zero_division else np_div num den.

(** Modelled from the spec: accuracy, the fraction of samples predicted
    right (the scoring library's [accuracy_score], a mean over the
    samples).  The notebook passes it no [zero_division]: on an empty label
    vector it is the quotient of two zero counts. *)
Definition accuracy_score (y_true y_hat : list bool) : Val :=
  np_div (count_pairs false false y_true y_hat
          + count_pairs true true y_true y_hat)
         (length y_true).

(** Modelled from the spec: precision TP / (TP + FP). *)
Definition precision_score (y_true y_hat : list bool) (zero_division : R)
  : Val :=
  ratio zero_division (count_pairs true true y_true y_hat)
        (count_pairs true true y_true y_hat
         + count_pairs false true y_true y_hat).

(** Modelled from the spec: recall TP / (TP + FN). *)
Definition recall_score (y_true y_hat : list bool) (zero_division : R)
  : Val :=
  ratio zero_division (count_pairs true true y_true y_hat)
        (count_pairs true true y_true y_hat
         + count_pairs true false y_true y_hat).

(** Modelled from the spec: F1 = 2 TP / (2 TP + FP + FN). *)
Definition f1_score (y_true y_hat : list bool) (zero_division : R) : Val :=
  ratio zero_division (2 * count_pairs true true y_true y_hat)
        (2 * count_pairs true true y_true y_hat
         + count_pairs false true y_true y_hat
         + count_pairs true false y_true y_hat).

Record Metrics : Type := mkMetrics {
  TN : nat; FP : nat; FN : nat; TP : nat;
  Accuracy : Val; Precision : Val; Recall : Val; F1 : Val;
  Specificity : Val; Gmean : Val
}.

(** [metrics]: the scoring library refuses label vectors of different
    lengths.  [spec = tn / (tn + fp) if (tn + fp) else 0.] and
    [gmean = (rec * spec) ** 0.5]. *)
Definition metrics (y_true y_hat : list bool) : Result Metrics :=
  if (length y_true =? length y_hat)%nat then
    let tn := count_pairs false false y_true y_hat in
    let fp := count_pairs false true y_true y_hat in
    let fn := count_pairs true false y_true y_hat in
    let tp := count_pairs true true y_true y_hat in
    let acc := accuracy_score y_true y_hat in
    let prec := precision_score y_true y_hat 0 in
    let rec := recall_score y_true y_hat 0 in
    let f1 := f1_score y_true y_hat 0 in
    let spec := if ((tn + fp) =? 0)%nat then Num 0 else np_div tn (tn + fp) in
    let gmean := Vsqrt (Vmul rec spec) in
    Ok (mkMetrics tn fp fn tp acc prec rec f1 spec gmean)
  else Raise ValueError.

(** ** Configuration of the notebook *)

Module Notebook.
Definition n_qubits : nat := 4.
Definition L : nat := 4.
Definition epochs : nat := 50.
Definition batch_size : nat := 16.
Definition thresholds : list R := [5 / 10; 6 / 10; 7 / 10].
End Notebook.

(** ** Notions used to state further properties of the notebook's code *)

(** A sample the embedding accepts on [n] wires. *)
Definition valid_sample (n : nat) (x : Sample) : Prop := (length x <= n)%nat.

(** Value of [cost_fn] on a batch it accepts: the mean over the batch of
    1 - (1 + <Z>)/2. *)
Definition cost_value (n L : nat) (w : Tensor) (X : list Sample) : R :=
  mean (map (fun x => 1 - (1 + forward n L x w) / 2) X).

(** Two training states with the same weights and optimizer state. *)
Definition same_model {OptState : Type} (s1 s2 : TrainState OptState)
  : Prop :=
  weights_of OptState s1 = weights_of OptState s2 /\
  opt_of OptState s1 = opt_of OptState s2.

(** A quotient of counts that is 0 when its denominator is 0. *)
Definition guarded_ratio (num den : nat) : R :=
  if (den =? 0)%nat then 0 else INR num / INR den.

(** * Proofs *)

(** ** Complex arithmetic *)

Lemma C_eq (a b : C) : Re a = Re b -> Im a = Im b -> a = b.
Proof. destruct a, b; simpl; intros -> ->; reflexivity. Qed.

Ltac csolve :=
  intros; apply C_eq; simpl; try ring.


(** ** Sums *)

Lemma sum_list_app (l1 l2 : list R) :
  sum_list (l1 ++ l2) = sum_list l1 + sum_list l2.
Proof.
  induction l1 as [|a l1 IH]; simpl.
  - ring.
  - rewrite IH. ring.
Qed.

Lemma sum_list_perm (l1 l2 : list R) :
  Permutation l1 l2 -> sum_list l1 = sum_list l2.
Proof.
  induction 1; simpl; try lra.
Qed.

Lemma sum_map_ext_in {A} (f g : A -> R) (l : list A) :
  (forall x, In x l -> f x = g x) ->
  sum_list (map f l) = sum_list (map g l).
Proof.
  intros H. f_equal. apply map_ext_in. exact H.
Qed.

Lemma sum_map_plus {A} (f g : A -> R) (l : list A) :
  sum_list (map (fun x => f x + g x) l) =
  sum_list (map f l) + sum_list (map g l).
Proof.
  induction l as [|a l IH]; simpl.
  - ring.
  - rewrite IH. ring.
Qed.

Lemma sum_map_scal {A} (c : R) (f : A -> R) (l : list A) :
  sum_list (map (fun x => c * f x) l) = c * sum_list (map f l).
Proof.
  induction l as [|a l IH]; simpl.
  - ring.
  - rewrite IH. ring.
Qed.


Lemma Rsum_ext (f g : nat -> R) (N : nat) :
  (forall i, (i < N)%nat -> f i = g i) -> Rsum f N = Rsum g N.
Proof.
  intros H. apply sum_map_ext_in. intros i Hi.
  apply in_seq in Hi. apply H. lia.
Qed.

Lemma Rsum_plus (f g : nat -> R) (N : nat) :
  Rsum (fun i => f i + g i) N = Rsum f N + Rsum g N.
Proof. apply sum_map_plus. Qed.

Lemma Rsum_scal (c : R) (f : nat -> R) (N : nat) :
  Rsum (fun i => c * f i) N = c * Rsum f N.
Proof. apply sum_map_scal. Qed.


(** Reindexing a sum along a bijection of the index range. *)
Lemma Rsum_reindex (s : nat -> nat) (f : nat -> R) (N : nat) :
  (forall i, (i < N)%nat -> (s i < N)%nat) ->
  (forall i j, s i = s j -> i = j) ->
  Rsum (fun i => f (s i)) N = Rsum f N.
Proof.
  intros Hb Hi. unfold Rsum.
  rewrite <- (map_map s f).
  apply sum_list_perm. apply Permutation_map.
  apply nat_bijection_Permutation; assumption.
Qed.

(** ** Bit flips *)

Lemma flip_flip (p i : nat) : flip p (flip p i) = i.
Proof.
  unfold flip.
  rewrite Nat.lxor_assoc, Nat.lxor_nilpotent, Nat.lxor_0_r. reflexivity.
Qed.

Lemma flip_inj (p i j : nat) : flip p i = flip p j -> i = j.
Proof.
  intros H. rewrite <- (flip_flip p i), H. apply flip_flip.
Qed.

Lemma testbit_flip (p q i : nat) :
  Nat.testbit (flip p i) q = xorb (Nat.testbit i q) (p =? q)%nat.
Proof.
  unfold flip. rewrite Nat.lxor_spec, Nat.pow2_bits_eqb. reflexivity.
Qed.

Lemma testbit_flip_same (p i : nat) :
  Nat.testbit (flip p i) p = negb (Nat.testbit i p).
Proof.
  rewrite testbit_flip, Nat.eqb_refl. apply xorb_true_r.
Qed.

Lemma testbit_flip_other (p q i : nat) :
  p <> q -> Nat.testbit (flip p i) q = Nat.testbit i q.
Proof.
  intros H. rewrite testbit_flip.
  apply Nat.eqb_neq in H. rewrite H. apply xorb_false_r.
Qed.

Lemma flip_bound (n p i : nat) :
  (p < n)%nat -> (i < 2 ^ n)%nat -> (flip p i < 2 ^ n)%nat.
Proof.
  intros Hp Hi. unfold flip.
  destruct (Nat.eq_dec (Nat.lxor i (2 ^ p)) 0) as [E|E].
  - rewrite E. lia.
  - apply Nat.log2_lt_pow2; [lia|].
    eapply Nat.le_lt_trans; [apply Nat.log2_lxor|].
    apply Nat.max_lub_lt.
    + destruct (Nat.eq_dec i 0) as [->|Hi0].
      * rewrite Nat.log2_nonpos by lia. lia.
      * apply Nat.log2_lt_pow2; lia.
    + rewrite Nat.log2_pow2; lia.
Qed.


Lemma bitpos_lt (n w : nat) : (w < n)%nat -> (bitpos n w < n)%nat.
Proof. unfold bitpos. lia. Qed.

Lemma bitpos_inj (n c t : nat) :
  (c < n)%nat -> (t < n)%nat -> c <> t -> bitpos n c <> bitpos n t.
Proof. unfold bitpos. lia. Qed.

(** ** The controlled flip *)

Lemma apply_cnot_index (n c t : nat) (psi : State) (i : nat) :
  apply_cnot n c t psi i = psi (cnot_index (bitpos n c) (bitpos n t) i).
Proof.
  unfold apply_cnot, cnot_index.
  destruct (Nat.testbit i (bitpos n c)); reflexivity.
Qed.

Lemma cnot_index_invol (pc pt i : nat) :
  pc <> pt -> cnot_index pc pt (cnot_index pc pt i) = i.
Proof.
  intros Hne. unfold cnot_index.
  destruct (Nat.testbit i pc) eqn:Hb.
  - rewrite testbit_flip_other by congruence.
    rewrite Hb. apply flip_flip.
  - rewrite Hb. reflexivity.
Qed.

Lemma cnot_index_bound (n pc pt i : nat) :
  (pt < n)%nat -> (i < 2 ^ n)%nat -> (cnot_index pc pt i < 2 ^ n)%nat.
Proof.
  intros Hp Hi. unfold cnot_index.
  destruct (Nat.testbit i pc); [apply flip_bound|]; assumption.
Qed.

Lemma apply_cnot_twice (n c t : nat) (psi : State) :
  (c < n)%nat -> (t < n)%nat -> c <> t ->
  apply_cnot n c t (apply_cnot n c t psi) = psi.
Proof.
  intros Hc Ht Hne. apply functional_extensionality. intros i.
  rewrite !apply_cnot_index.
  rewrite cnot_index_invol; [reflexivity|].
  apply bitpos_inj; assumption.
Qed.

(** C5: the controlled flip is self-inverse.  For every state vector and
    every valid pair of distinct wires of an n-wire register, running the
    tape [CNOT c t; CNOT c t] gives back the state it started from, at every
    index. *)
Theorem cnot_self_inverse (n c t : nat) (psi : State) :
  valid_op n (CNOT c t) ->
  exec n [CNOT c t; CNOT c t] psi = psi.
Proof.
  intros (Hc & Ht & Hne). simpl.
  apply apply_cnot_twice; assumption.
Qed.

Lemma cnot_self_inverse_witness :
  valid_op 4 (CNOT 3 0) /\
  exec 4 [CNOT 3 0; CNOT 3 0] init_state = init_state.
Proof.
  assert (H : valid_op 4 (CNOT 3 0)) by (simpl; lia).
  split; [exact H | exact (cnot_self_inverse 4 3 0 init_state H)].
Defined.

(** ** Mini-batches *)

(** Number of mini-batches of an epoch: the dataset size over the batch
    size, rounded up. *)
Lemma n_batches_cover (N bs : nat) :
  (0 < bs)%nat -> (N <= (N + bs - 1) / bs * bs)%nat.
Proof.
  intros Hbs.
  pose proof (Nat.div_mod_eq (N + bs - 1) bs) as E.
  pose proof (Nat.mod_upper_bound (N + bs - 1) bs) as U.
  nia.
Qed.

Lemma n_batches_start (N bs j : nat) :
  (0 < bs)%nat -> (j < (N + bs - 1) / bs)%nat -> (j * bs < N)%nat.
Proof.
  intros Hbs Hj.
  pose proof (Nat.div_mod_eq (N + bs - 1) bs) as E.
  pose proof (Nat.mod_upper_bound (N + bs - 1) bs) as U.
  nia.
Qed.

Lemma batch_iter_ok (X : list Sample) (bs : nat) :
  (0 < bs)%nat ->
  batch_iter X bs =
  Ok (map (fun j => (j * bs)%nat) (seq 0 ((length X + bs - 1) / bs))).
Proof.
  intros Hbs. unfold batch_iter, py_range.
  destruct (Nat.eqb_spec bs 0) as [E|E]; [lia|].
  rewrite Nat.sub_0_r. reflexivity.
Qed.

Lemma epoch_batches_ok (epoch : nat) (X : list Sample) (bs : nat) :
  (0 < bs)%nat ->
  epoch_batches epoch X bs =
  Ok (map (fun j => slice X (j * bs) (j * bs + bs))
          (seq 0 ((length X + bs - 1) / bs))).
Proof.
  intros Hbs. unfold epoch_batches.
  rewrite batch_iter_ok by assumption. simpl.
  rewrite map_map. reflexivity.
Qed.

Lemma slice_batch {A} (X : list A) (bs j : nat) :
  slice X (j * bs) (j * bs + bs) = firstn bs (skipn (j * bs) X).
Proof.
  unfold slice. f_equal. lia.
Qed.

Lemma slice_length {A} (X : list A) (a b : nat) :
  length (slice X a b) = Nat.min (b - a) (length X - a).
Proof.
  unfold slice. rewrite length_firstn, length_skipn. reflexivity.
Qed.

Lemma slice_nth_error {A} (X : list A) (a b i : nat) :
  (i < b - a)%nat -> nth_error (slice X a b) i = nth_error X (a + i).
Proof.
  intros Hi. unfold slice.
  rewrite nth_error_firstn.
  destruct (Nat.ltb_spec i (b - a)); [|lia].
  apply nth_error_skipn.
Qed.

(** Cutting a list into consecutive pieces of [bs] elements and gluing the
    pieces gives the list back. *)
Lemma concat_chunks {A} (bs m : nat) :
  forall X : list A,
    (length X <= m * bs)%nat ->
    concat (map (fun j => firstn bs (skipn (j * bs) X)) (seq 0 m)) = X.
Proof.
  induction m as [|m IH]; intros X HX.
  - simpl in *. destruct X; [reflexivity | simpl in HX; lia].
  - change (seq 0 (S m)) with (0%nat :: seq 1 m).
    rewrite <- seq_shift, map_cons, map_map. simpl concat.
    transitivity (firstn bs X ++ skipn bs X); [|apply firstn_skipn].
    f_equal.
    etransitivity; [|apply (IH (skipn bs X))].
    + f_equal. apply map_ext. intros j.
      rewrite skipn_skipn. do 2 f_equal. lia.
    + rewrite length_skipn. simpl in HX. lia.
Qed.

Lemma nth_map_seq {A} (f : nat -> A) (m j : nat) (d : A) :
  (j < m)%nat -> nth j (map f (seq 0 m)) d = f j.
Proof.
  intros Hj.
  rewrite (nth_indep _ d (f 0%nat)) by (rewrite length_map, length_seq; lia).
  rewrite map_nth, seq_nth by lia. reflexivity.
Qed.

Lemma batch_length (X : list Sample) (bs j : nat) :
  length (slice X (j * bs) (j * bs + bs)) = Nat.min bs (length X - j * bs).
Proof.
  rewrite slice_length. f_equal. lia.
Qed.

(** C6, as the notebook has it: with a positive batch size the mini-batches
    of every epoch are the same list; there are ceil(N / batch_size) of
    them; batch j holds the samples of indices j*batch_size up to
    min((j+1)*batch_size, N), in dataset order, so it has batch_size samples
    whenever (j+1)*batch_size <= N and the rest of the dataset otherwise. *)
Theorem batches_contiguous (X : list Sample) (bs : nat) :
  (0 < bs)%nat ->
  exists bl : list (list Sample),
    (forall epoch, epoch_batches epoch X bs = Ok bl) /\
    length bl = ((length X + bs - 1) / bs)%nat /\
    forall j, (j < length bl)%nat ->
      length (nth j bl []) = Nat.min bs (length X - j * bs) /\
      (((j + 1) * bs <= length X)%nat -> length (nth j bl []) = bs) /\
      forall i, (i < length (nth j bl []))%nat ->
        nth_error (nth j bl []) i = nth_error X (j * bs + i).
Proof.
  intros Hbs.
  eexists. split; [intros epoch; apply epoch_batches_ok; assumption|].
  rewrite length_map, length_seq. split; [reflexivity|].
  intros j Hj. rewrite nth_map_seq by assumption.
  rewrite batch_length. split; [reflexivity|]. split.
  - intros Hfull. apply Nat.min_l. lia.
  - intros i Hi. apply slice_nth_error. lia.
Qed.

Lemma batches_contiguous_witness :
  (0 < 16)%nat /\
  exists bl : list (list Sample),
    (forall epoch, epoch_batches epoch [[0]; [1]; [2]] 16 = Ok bl) /\
    length bl = ((length [[0]; [1]; [2]] + 16 - 1) / 16)%nat /\
    forall j, (j < length bl)%nat ->
      length (nth j bl []) = Nat.min 16 (length [[0]; [1]; [2]] - j * 16) /\
      (((j + 1) * 16 <= length [[0]; [1]; [2]])%nat ->
       length (nth j bl []) = 16%nat) /\
      forall i, (i < length (nth j bl []))%nat ->
        nth_error (nth j bl []) i = nth_error [[0]; [1]; [2]] (j * 16 + i).
Proof.
  assert (H : (0 < 16)%nat) by lia.
  split; [exact H | exact (batches_contiguous [[0]; [1]; [2]] 16 H)].
Defined.

(** C6 as stated fails: on a dataset of five samples with batch size two the
    third mini-batch of the epoch holds one sample, not two. *)
Lemma batches_fixed_size_counterexample :
  epoch_batches 0 [[0]; [1]; [2]; [3]; [4]] 2
  = Ok [[[0]; [1]]; [[2]; [3]]; [[4]]]
  /\ length (nth 2 [[[0]; [1]]; [[2]; [3]]; [[4]]] []) <> 2%nat.
Proof.
  split; [reflexivity | simpl; lia].
Qed.

(** C10: with a positive batch size the mini-batches of an epoch partition
    the training set.  Glued in order they are the training set itself, so
    every sample sits in exactly one batch; no batch is empty or longer than
    batch_size, and sample i is at place i mod batch_size of batch
    i / batch_size, also when the size of the dataset is not a multiple of
    the batch size (the last batch then holds the remaining samples). *)
Theorem batches_partition (epoch : nat) (X : list Sample) (bs : nat) :
  (0 < bs)%nat ->
  exists bl : list (list Sample),
    epoch_batches epoch X bs = Ok bl /\
    concat bl = X /\
    (forall b, In b bl -> (0 < length b <= bs)%nat) /\
    (forall i, (i < length X)%nat ->
       (i / bs < length bl)%nat /\
       nth_error (nth (i / bs) bl []) (i mod bs) = nth_error X i) /\
    ((length X mod bs <> 0)%nat ->
       length (last bl []) = (length X mod bs)%nat).
Proof.
  intros Hbs.
  pose proof (n_batches_cover (length X) bs Hbs) as Hcov.
  eexists. split; [apply epoch_batches_ok; assumption|].
  split; [|split; [|split]].
  - erewrite map_ext; [apply concat_chunks; exact Hcov|].
    intros j. apply slice_batch.
  - intros b Hb. apply in_map_iff in Hb. destruct Hb as (j & <- & Hj).
    apply in_seq in Hj. rewrite batch_length.
    pose proof (n_batches_start (length X) bs j Hbs) as Hs. lia.
  - intros i Hi. rewrite length_map, length_seq.
    pose proof (Nat.div_mod_eq i bs) as E.
    pose proof (Nat.mod_upper_bound i bs) as U.
    assert (Hq : (i / bs < (length X + bs - 1) / bs)%nat).
    { apply Nat.Div0.div_lt_upper_bound. nia. }
    split; [exact Hq|].
    rewrite nth_map_seq by exact Hq.
    rewrite slice_nth_error by lia.
    f_equal. lia.
  - intros Hrem.
    set (m := ((length X + bs - 1) / bs)%nat) in *.
    pose proof (Nat.div_mod_eq (length X) bs) as E.
    pose proof (Nat.mod_upper_bound (length X) bs) as U.
    assert (Hm : m = S (length X / bs)).
    { unfold m. symmetry.
      apply Nat.div_unique with (r := (length X mod bs - 1)%nat); lia. }
    rewrite Hm, seq_S, map_app. simpl map. rewrite last_last.
    rewrite batch_length. lia.
Qed.

Lemma batches_partition_witness :
  (0 < 2)%nat /\
  exists bl : list (list Sample),
    epoch_batches 0 [[0]; [1]; [2]; [3]; [4]] 2 = Ok bl /\
    concat bl = [[0]; [1]; [2]; [3]; [4]] /\
    (forall b, In b bl -> (0 < length b <= 2)%nat) /\
    (forall i, (i < length [[0]; [1]; [2]; [3]; [4]])%nat ->
       (i / 2 < length bl)%nat /\
       nth_error (nth (i / 2) bl []) (i mod 2)
       = nth_error [[0]; [1]; [2]; [3]; [4]] i) /\
    ((length [[0]; [1]; [2]; [3]; [4]] mod 2 <> 0)%nat ->
       length (last bl []) = (length [[0]; [1]; [2]; [3]; [4]] mod 2)%nat).
Proof.
  assert (H : (0 < 2)%nat) by lia.
  split; [exact H|].
  exact (batches_partition 0 [[0]; [1]; [2]; [3]; [4]] 2 H).
Defined.

(** ** Empty inputs *)

Lemma cost_fn_empty (n L : nat) (w : Tensor) :
  cost_fn n L w [] = Raise ValueError.
Proof. reflexivity. Qed.

Lemma foldM_raise {S A} (f : S -> A -> Result S) (l : list A) (s : S)
    (a : A) (e : Exn) :
  f s a = Raise e -> foldM f (a :: l) s = Raise e.
Proof. intros H. simpl. rewrite H. reflexivity. Qed.

Lemma train_epoch_empty (n L : nat) (OptState : Type)
    (opt_step : OptState -> (Tensor -> Result R) -> Tensor
                -> Result (Tensor * OptState))
    (bs : nat) (st : TrainState OptState) (epoch : nat) :
  train_epoch n L OptState opt_step [] bs st epoch = Raise ValueError.
Proof.
  unfold train_epoch, epoch_batches, batch_iter, py_range.
  destruct (Nat.eqb_spec bs 0) as [E|E]; [reflexivity|].
  simpl length. rewrite Nat.sub_0_r, Nat.add_0_l.
  rewrite Nat.div_small by lia. simpl.
  unfold slice. rewrite firstn_nil. reflexivity.
Qed.

(** C7: an empty training set makes the run fail.  Whatever the optimizer,
    the batch size and the starting state, a training run of at least one
    epoch over the empty dataset raises (the epoch's loss report evaluates
    the cost on an empty slice) instead of returning a state; and the cost
    function raises on an empty mini-batch. *)
Theorem empty_training_set_raises (n L : nat) (OptState : Type)
    (opt_step : OptState -> (Tensor -> Result R) -> Tensor
                -> Result (Tensor * OptState))
    (epochs bs : nat) (st : TrainState OptState) (w : Tensor) :
  (1 <= epochs)%nat ->
  train n L OptState opt_step epochs [] bs st = Raise ValueError /\
  cost_fn n L w [] = Raise ValueError.
Proof.
  intros He. split; [|apply cost_fn_empty].
  unfold train. destruct epochs as [|k]; [lia|].
  simpl seq. apply foldM_raise. apply train_epoch_empty.
Qed.

Lemma empty_training_set_raises_witness :
  (1 <= 50)%nat /\
  train 4 4 unit (fun s _ w => Ok (w, s)) 50 [] 16
        (mkTrainState unit (fun _ _ _ => 0) tt []) = Raise ValueError /\
  cost_fn 4 4 (fun _ _ _ => 0) [] = Raise ValueError.
Proof.
  assert (H : (1 <= 50)%nat) by lia.
  split; [exact H|].
  exact (empty_training_set_raises 4 4 unit (fun s _ w => Ok (w, s)) 50 16
           (mkTrainState unit (fun _ _ _ => 0) tt []) (fun _ _ _ => 0) H).
Defined.

(** ** Metrics *)

Lemma ratio_zero_den (zd : R) (num den : nat) :
  den = 0%nat -> ratio zd num den = Num zd.
Proof. intros ->. reflexivity. Qed.

Lemma ratio_pos_den (zd : R) (num den : nat) :
  den <> 0%nat -> ratio zd num den = Num (INR num / INR den).
Proof.
  intros H. unfold ratio, np_div.
  destruct (Nat.eqb_spec den 0); [contradiction | reflexivity].
Qed.

Lemma ratio_guarded (num den : nat) :
  ratio 0 num den = Num (guarded_ratio num den).
Proof.
  unfold ratio, np_div, guarded_ratio.
  destruct (den =? 0)%nat; reflexivity.
Qed.

Lemma specificity_guarded (tn fp : nat) :
  (if ((tn + fp) =? 0)%nat then Num 0 else np_div tn (tn + fp))
  = Num (guarded_ratio tn (tn + fp)).
Proof.
  unfold np_div, guarded_ratio.
  destruct ((tn + fp) =? 0)%nat; reflexivity.
Qed.

Lemma metrics_ok (y yh : list bool) :
  length y = length yh ->
  metrics y yh =
  Ok (mkMetrics (count_pairs false false y yh) (count_pairs false true y yh)
        (count_pairs true false y yh) (count_pairs true true y yh)
        (np_div (count_pairs false false y yh + count_pairs true true y yh)
                (length y))
        (Num (guarded_ratio (count_pairs true true y yh)
                (count_pairs true true y yh + count_pairs false true y yh)))
        (Num (guarded_ratio (count_pairs true true y yh)
                (count_pairs true true y yh + count_pairs true false y yh)))
        (Num (guarded_ratio (2 * count_pairs true true y yh)
                (2 * count_pairs true true y yh
                 + count_pairs false true y yh
                 + count_pairs true false y yh)))
        (Num (guarded_ratio (count_pairs false false y yh)
                (count_pairs false false y yh
                 + count_pairs false true y yh)))
        (Num (sqrt (guarded_ratio (count_pairs true true y yh)
                      (count_pairs true true y yh
                       + count_pairs true false y yh)
                    * guarded_ratio (count_pairs false false y yh)
                        (count_pairs false false y yh
                         + count_pairs false true y yh))))).
Proof.
  intros H. unfold metrics. apply Nat.eqb_eq in H. rewrite H.
  unfold accuracy_score, precision_score, recall_score, f1_score.
  rewrite !ratio_guarded, specificity_guarded. reflexivity.
Qed.

(** ** Gates preserve the norm *)

Lemma unitary2_pair (U : Mat2) (a b : C) :
  unitary2 U ->
  Cnorm2 (Cadd (Cmul (m00 U) a) (Cmul (m01 U) b))
  + Cnorm2 (Cadd (Cmul (m10 U) a) (Cmul (m11 U) b))
  = Cnorm2 a + Cnorm2 b.
Proof.
  intros (H0 & H1 & HP & HQ).
  destruct U as [[u0 u1] [v0 v1] [w0 w1] [z0 z1]].
  destruct a as [a0 a1], b as [b0 b1].
  unfold Cnorm2, Cdot, Ccross in *. simpl in *.
  set (N0 := u0 * u0 + u1 * u1 + (w0 * w0 + w1 * w1)) in *.
  set (N1 := v0 * v0 + v1 * v1 + (z0 * z0 + z1 * z1)) in *.
  set (P := u0 * v0 + u1 * v1 + (w0 * z0 + w1 * z1)) in *.
  set (Q := u0 * v1 - u1 * v0 + (w0 * z1 - w1 * z0)) in *.
  transitivity (N0 * (a0 * a0 + a1 * a1) + N1 * (b0 * b0 + b1 * b1)
                + 2 * ((a0 * b0 + a1 * b1) * P - (a0 * b1 - a1 * b0) * Q)).
  - unfold N0, N1, P, Q. ring.
  - rewrite H0, H1, HP, HQ. ring.
Qed.

Lemma cos2_sin2_half (theta : R) :
  cos (theta / 2) * cos (theta / 2) + sin (theta / 2) * sin (theta / 2) = 1.
Proof.
  pose proof (sin2_cos2 (theta / 2)) as H. unfold Rsqr in H. lra.
Qed.

Lemma RX_unitary (theta : R) : unitary2 (RX_matrix theta).
Proof.
  pose proof (cos2_sin2_half theta) as H.
  unfold unitary2, Cnorm2, Cdot, Ccross. simpl.
  repeat split; nra.
Qed.

Lemma RY_unitary (theta : R) : unitary2 (RY_matrix theta).
Proof.
  pose proof (cos2_sin2_half theta) as H.
  unfold unitary2, Cnorm2, Cdot, Ccross. simpl.
  repeat split; nra.
Qed.

Lemma RZ_unitary (theta : R) : unitary2 (RZ_matrix theta).
Proof.
  pose proof (cos2_sin2_half theta) as H.
  unfold unitary2, Cnorm2, Cdot, Ccross. simpl.
  repeat split; nra.
Qed.

Lemma apply_1q_pair (n : nat) (U : Mat2) (w : nat) (psi : State) (i : nat) :
  unitary2 U ->
  Cnorm2 (apply_1q n U w psi i)
  + Cnorm2 (apply_1q n U w psi (flip (bitpos n w) i))
  = Cnorm2 (psi i) + Cnorm2 (psi (flip (bitpos n w) i)).
Proof.
  intros HU. unfold apply_1q. cbv zeta.
  rewrite testbit_flip_same, flip_flip.
  destruct (Nat.testbit i (bitpos n w)); simpl negb; cbv iota.
  - rewrite Rplus_comm, (Rplus_comm (Cnorm2 (psi i))).
    apply unitary2_pair. exact HU.
  - apply unitary2_pair. exact HU.
Qed.

Lemma Rsum_flip (n p : nat) (f : nat -> R) :
  (p < n)%nat -> Rsum (fun i => f (flip p i)) (2 ^ n) = Rsum f (2 ^ n).
Proof.
  intros Hp. apply Rsum_reindex.
  - intros i Hi. apply flip_bound; assumption.
  - intros i j. apply flip_inj.
Qed.

Lemma norm2_apply_1q (n : nat) (U : Mat2) (w : nat) (psi : State) :
  (w < n)%nat -> unitary2 U ->
  norm2 n (apply_1q n U w psi) = norm2 n psi.
Proof.
  intros Hw HU. unfold norm2.
  pose proof (bitpos_lt n w Hw) as Hp.
  set (p := bitpos n w) in *.
  set (g := fun i => Cnorm2 (apply_1q n U w psi i)).
  set (h := fun i => Cnorm2 (psi i)).
  assert (E : Rsum (fun i => g i + g (flip p i)) (2 ^ n)
              = Rsum (fun i => h i + h (flip p i)) (2 ^ n)).
  { apply Rsum_ext. intros i _. apply apply_1q_pair. exact HU. }
  rewrite !Rsum_plus in E.
  rewrite (Rsum_flip n p g Hp), (Rsum_flip n p h Hp) in E.
  change (Rsum g (2 ^ n) = Rsum h (2 ^ n)). lra.
Qed.

Lemma norm2_apply_cnot (n c t : nat) (psi : State) :
  (c < n)%nat -> (t < n)%nat -> c <> t ->
  norm2 n (apply_cnot n c t psi) = norm2 n psi.
Proof.
  intros Hc Ht Hne. unfold norm2.
  pose proof (bitpos_inj n c t Hc Ht Hne) as Hp.
  pose proof (bitpos_lt n t Ht) as Hpt.
  rewrite (Rsum_ext _ (fun i => Cnorm2
            (psi (cnot_index (bitpos n c) (bitpos n t) i)))).
  - apply (Rsum_reindex (cnot_index (bitpos n c) (bitpos n t))
                        (fun i => Cnorm2 (psi i))).
    + intros i Hi. apply cnot_index_bound; assumption.
    + intros i j Hij.
      rewrite <- (cnot_index_invol _ _ i Hp), Hij.
      apply cnot_index_invol. exact Hp.
  - intros i _. rewrite apply_cnot_index. reflexivity.
Qed.

Lemma norm2_apply_op (n : nat) (o : Op) (psi : State) :
  valid_op n o -> norm2 n (apply_op n o psi) = norm2 n psi.
Proof.
  destruct o as [th w|th w|th w|c t]; simpl; intros H.
  - apply norm2_apply_1q; [exact H | apply RX_unitary].
  - apply norm2_apply_1q; [exact H | apply RY_unitary].
  - apply norm2_apply_1q; [exact H | apply RZ_unitary].
  - destruct H as (Hc & Ht & Hne). apply norm2_apply_cnot; assumption.
Qed.

Lemma norm2_exec (n : nat) (tape : list Op) :
  Forall (valid_op n) tape ->
  forall psi, norm2 n (exec n tape psi) = norm2 n psi.
Proof.
  induction 1 as [|o tape Ho Ht IH]; intros psi.
  - reflexivity.
  - simpl. rewrite IH. apply norm2_apply_op. exact Ho.
Qed.

Lemma Rsum_S (f : nat -> R) (m : nat) :
  Rsum f (S m) = f 0%nat + Rsum (fun i => f (S i)) m.
Proof.
  unfold Rsum. simpl. rewrite <- seq_shift, map_map. reflexivity.
Qed.

Lemma Rsum_zero (m : nat) : Rsum (fun _ => 0) m = 0.
Proof.
  unfold Rsum. induction (seq 0 m) as [|a l IH]; simpl; [reflexivity|].
  rewrite IH. ring.
Qed.

Lemma norm2_init (n : nat) : norm2 n init_state = 1.
Proof.
  unfold norm2.
  assert (H : (2 ^ n <> 0)%nat) by (apply Nat.pow_nonzero; lia).
  destruct (2 ^ n)%nat as [|m]; [contradiction|].
  rewrite Rsum_S. simpl.
  rewrite (Rsum_ext _ (fun _ => 0)).
  - rewrite Rsum_zero. unfold Cnorm2. simpl. ring.
  - intros i _. unfold Cnorm2. simpl. ring.
Qed.

(** ** The tape of the circuit is accepted by the device *)

Lemma ring_cnot_valid (n w : nat) :
  (2 <= n)%nat -> (w < n)%nat -> valid_op n (CNOT w ((w + 1) mod n)).
Proof.
  intros Hn Hw. simpl. split; [exact Hw|]. split.
  - apply Nat.mod_upper_bound. lia.
  - destruct (Nat.eq_dec (w + 1) n) as [E|E].
    + rewrite E, Nat.Div0.mod_same. lia.
    + rewrite Nat.mod_small by lia. lia.
Qed.

Lemma qae_layer_valid (n : nat) (theta : nat -> nat -> R) :
  (2 <= n)%nat -> Forall (valid_op n) (qae_layer n theta).
Proof.
  intros Hn. unfold qae_layer. apply Forall_app. split.
  - apply Forall_flat_map. apply Forall_forall. intros w Hw.
    apply in_seq in Hw. repeat constructor; simpl; lia.
  - apply Forall_map. apply Forall_forall. intros w Hw.
    apply in_seq in Hw. apply ring_cnot_valid; lia.
Qed.

Lemma AngleEmbedding_valid (n : nat) (x : Sample) :
  (length x <= n)%nat -> Forall (valid_op n) (AngleEmbedding x).
Proof.
  intros Hx. unfold AngleEmbedding.
  apply Forall_map. apply Forall_forall. intros i Hi.
  apply in_seq in Hi. simpl. lia.
Qed.

Lemma qae_tape_valid (n L : nat) (x : Sample) (w : Tensor) :
  (2 <= n)%nat -> (length x <= n)%nat ->
  Forall (valid_op n) (qae_tape n L x w).
Proof.
  intros Hn Hx. unfold qae_tape. apply Forall_app. split.
  - apply AngleEmbedding_valid. exact Hx.
  - apply Forall_flat_map. apply Forall_forall. intros l _.
    apply qae_layer_valid. exact Hn.
Qed.

Lemma Forall_prefix {A} (P : A -> Prop) (l : list A) (k : nat) :
  Forall P l -> Forall P (firstn k l).
Proof.
  intros H. apply Forall_forall. intros a Ha.
  rewrite Forall_forall in H. apply H.
  rewrite <- (firstn_skipn k l). apply in_or_app. left. exact Ha.
Qed.

(** C2: the state stays normalised.  For a register of at least two wires,
    every sample with as many features as wires and every parameter tensor,
    the state reached from the initial state after any number k of the
    circuit's gate applications (the first k gates of the tape, any k) has
    squared amplitude magnitudes summing to exactly 1. *)
Theorem norm_preserved_by_every_prefix (n L : nat) (x : Sample) (w : Tensor)
    (k : nat) :
  (2 <= n)%nat -> length x = n ->
  norm2 n (exec n (firstn k (qae_tape n L x w)) init_state) = 1.
Proof.
  intros Hn Hx.
  rewrite norm2_exec.
  - apply norm2_init.
  - apply Forall_prefix. apply qae_tape_valid; lia.
Qed.

Lemma norm_preserved_by_every_prefix_witness :
  (2 <= 4)%nat /\ length [0; 0; 0; 0] = 4%nat /\
  norm2 4 (exec 4 (firstn 7 (qae_tape 4 4 [0; 0; 0; 0] (fun _ _ _ => 0)))
                init_state) = 1.
Proof.
  assert (H1 : (2 <= 4)%nat) by lia.
  assert (H2 : length [0; 0; 0; 0] = 4%nat) by reflexivity.
  split; [exact H1|]. split; [exact H2|].
  exact (norm_preserved_by_every_prefix 4 4 [0; 0; 0; 0] (fun _ _ _ => 0) 7
           H1 H2).
Defined.

(** ** Measurement and fidelity *)


Lemma qae_circuit_ok (n L : nat) (x : Sample) (w : Tensor) :
  (length x <= n)%nat -> qae_circuit n L x w = Ok (forward n L x w).
Proof.
  intros Hx. unfold qae_circuit.
  apply Nat.leb_le in Hx. rewrite Hx. reflexivity.
Qed.


Lemma flag_true_iff (p T : R) : flag p T = true <-> p < T.
Proof.
  unfold flag. destruct (Rlt_dec p T) as [H|H]; split; intros H'.
  - exact H.
  - reflexivity.
  - discriminate.
  - contradiction.
Qed.

(** ** Layout of the tape *)

Lemma flat_map_block_length {A B} (f : A -> list B) (b : nat) (l : list A) :
  (forall a, length (f a) = b) ->
  length (flat_map f l) = (length l * b)%nat.
Proof.
  intros Hf. induction l as [|a l IH]; simpl; [reflexivity|].
  rewrite length_app, Hf, IH. reflexivity.
Qed.

Lemma nth_error_flat_map_block {A B} (f : A -> list B) (b : nat) :
  (forall a, length (f a) = b) ->
  forall (l : list A) (k r : nat),
    (r < b)%nat ->
    nth_error (flat_map f l) (k * b + r)
    = match nth_error l k with
      | Some a => nth_error (f a) r
      | None => None
      end.
Proof.
  intros Hf. induction l as [|a l IH]; intros k r Hr.
  - simpl. rewrite !nth_error_nil. reflexivity.
  - simpl flat_map. destruct k as [|k].
    + simpl. apply nth_error_app1. rewrite Hf. exact Hr.
    + rewrite nth_error_app2 by (rewrite Hf; lia).
      rewrite Hf. cbn [nth_error].
      replace (S k * b + r - b)%nat with (k * b + r)%nat by lia.
      apply IH. exact Hr.
Qed.

Lemma nth_error_seq0 (m k : nat) :
  (k < m)%nat -> nth_error (seq 0 m) k = Some k.
Proof.
  intros H. rewrite nth_error_nth' with (d := 0%nat)
    by (rewrite length_seq; exact H).
  rewrite seq_nth by exact H. reflexivity.
Qed.

Lemma qae_layer_length (n : nat) (theta : nat -> nat -> R) :
  length (qae_layer n theta) = (4 * n)%nat.
Proof.
  unfold qae_layer.
  rewrite length_app, length_map, length_seq.
  rewrite (flat_map_block_length _ 3) by reflexivity.
  rewrite length_seq. lia.
Qed.

Lemma qae_layer_rot (n : nat) (theta : nat -> nat -> R) (q r : nat) :
  (q < n)%nat -> (r < 3)%nat ->
  nth_error (qae_layer n theta) (3 * q + r)
  = nth_error [RX (theta q 0%nat) q; RY (theta q 1%nat) q;
               RZ (theta q 2%nat) q] r.
Proof.
  intros Hq Hr. unfold qae_layer.
  rewrite nth_error_app1.
  - replace (3 * q + r)%nat with (q * 3 + r)%nat by lia.
    rewrite (nth_error_flat_map_block _ 3) by (reflexivity || exact Hr).
    rewrite nth_error_seq0 by exact Hq. reflexivity.
  - rewrite (flat_map_block_length _ 3) by reflexivity.
    rewrite length_seq. lia.
Qed.

Lemma qae_layer_cnot (n : nat) (theta : nat -> nat -> R) (q : nat) :
  (q < n)%nat ->
  nth_error (qae_layer n theta) (3 * n + q)
  = Some (CNOT q ((q + 1) mod n)).
Proof.
  intros Hq. unfold qae_layer.
  rewrite nth_error_app2.
  - rewrite (flat_map_block_length _ 3) by reflexivity.
    rewrite length_seq.
    replace (3 * n + q - n * 3)%nat with q by lia.
    rewrite nth_error_map, nth_error_seq0 by exact Hq. reflexivity.
  - rewrite (flat_map_block_length _ 3) by reflexivity.
    rewrite length_seq. lia.
Qed.

Lemma AngleEmbedding_length (x : Sample) :
  length (AngleEmbedding x) = length x.
Proof. unfold AngleEmbedding. rewrite length_map, length_seq. reflexivity. Qed.

Lemma qae_tape_length (n L : nat) (x : Sample) (w : Tensor) :
  length (qae_tape n L x w) = (length x + L * (4 * n))%nat.
Proof.
  unfold qae_tape.
  rewrite length_app, AngleEmbedding_length.
  rewrite (flat_map_block_length _ (4 * n))
    by (intros l; apply qae_layer_length).
  rewrite length_seq. reflexivity.
Qed.

Lemma qae_tape_encoding (n L : nat) (x : Sample) (w : Tensor) (i : nat) :
  (i < length x)%nat ->
  nth_error (qae_tape n L x w) i = Some (RY (nth i x 0) i).
Proof.
  intros Hi. unfold qae_tape.
  rewrite nth_error_app1 by (rewrite AngleEmbedding_length; exact Hi).
  unfold AngleEmbedding.
  rewrite nth_error_map, nth_error_seq0 by exact Hi. reflexivity.
Qed.

Lemma qae_tape_layer (n L : nat) (x : Sample) (w : Tensor) (l j : nat) :
  (l < L)%nat -> (j < 4 * n)%nat ->
  nth_error (qae_tape n L x w) (length x + l * (4 * n) + j)
  = nth_error (qae_layer n (w l)) j.
Proof.
  intros Hl Hj. unfold qae_tape.
  rewrite nth_error_app2 by (rewrite AngleEmbedding_length; lia).
  rewrite AngleEmbedding_length.
  replace (length x + l * (4 * n) + j - length x)%nat
    with (l * (4 * n) + j)%nat by lia.
  rewrite (nth_error_flat_map_block _ (4 * n))
    by (exact Hj || intros a; apply qae_layer_length).
  rewrite nth_error_seq0 by exact Hl. reflexivity.
Qed.

Lemma exec_app (n : nat) (t1 t2 : list Op) (psi : State) :
  exec n (t1 ++ t2) psi = exec n t2 (exec n t1 psi).
Proof. unfold exec. apply fold_left_app. Qed.

Lemma firstn_S_nth_error {A} (l : list A) :
  forall (k : nat) (a : A),
    nth_error l k = Some a -> firstn (S k) l = firstn k l ++ [a].
Proof.
  induction l as [|b l IH]; intros k a H.
  - rewrite nth_error_nil in H. discriminate.
  - destruct k as [|k].
    + simpl in H. injection H as ->. reflexivity.
    + simpl in H. rewrite !firstn_cons, (IH k a H). reflexivity.
Qed.

(** C3: the forward evaluation is the layered circuit.  For a register of
    at least two wires and a sample with as many features as wires: the
    device starts from amplitude 1 at index 0 and 0 elsewhere; the value
    returned is the Pauli-Z expectation on the last wire of the state the
    tape leaves; gates act in tape order (the state after k+1 gates is gate
    k applied to the state after k gates); the tape has n encoding gates and
    then L blocks of 4n gates; gate i of the encoding is RY of feature i on
    wire i; in block l, places 3q, 3q+1, 3q+2 hold RX, RY, RZ on wire q with
    the parameters (l,q,0), (l,q,1), (l,q,2), and place 3n+q holds CNOT from
    q to (q+1) mod n, the last of them being the wrap-around CNOT from wire
    n-1 to wire 0. *)
Theorem forward_is_the_layered_circuit (n L : nat) (x : Sample) (w : Tensor) :
  (2 <= n)%nat -> length x = n ->
  let tape := qae_tape n L x w in
  (init_state 0%nat = C1 /\ forall i, i <> 0%nat -> init_state i = C0) /\
  qae_circuit n L x w
  = Ok (expval_PauliZ n (n - 1) (exec n tape init_state)) /\
  (forall k o, nth_error tape k = Some o ->
     exec n (firstn (S k) tape) init_state
     = apply_op n o (exec n (firstn k tape) init_state)) /\
  length tape = (n + L * (4 * n))%nat /\
  (forall i, (i < n)%nat -> nth_error tape i = Some (RY (nth i x 0) i)) /\
  (forall l q, (l < L)%nat -> (q < n)%nat ->
     nth_error tape (n + l * (4 * n) + 3 * q)
     = Some (RX (w l q 0%nat) q) /\
     nth_error tape (n + l * (4 * n) + 3 * q + 1)
     = Some (RY (w l q 1%nat) q) /\
     nth_error tape (n + l * (4 * n) + 3 * q + 2)
     = Some (RZ (w l q 2%nat) q) /\
     nth_error tape (n + l * (4 * n) + 3 * n + q)
     = Some (CNOT q ((q + 1) mod n))) /\
  (forall l, (l < L)%nat ->
     nth_error tape (n + l * (4 * n) + 3 * n + (n - 1))
     = Some (CNOT (n - 1) 0)).
Proof.
  intros Hn Hx tape. subst tape.
  split.
  { split; [reflexivity|]. intros i Hi. unfold init_state.
    apply Nat.eqb_neq in Hi. rewrite Hi. reflexivity. }
  split; [apply qae_circuit_ok; lia|].
  split.
  { intros k o Hk. rewrite (firstn_S_nth_error _ k o Hk).
    rewrite exec_app. reflexivity. }
  split; [rewrite qae_tape_length, Hx; reflexivity|].
  split; [intros i Hi; apply qae_tape_encoding; lia|].
  split.
  - intros l q Hl Hq. subst n.
    set (N := length x) in *. set (base := (N + l * (4 * N))%nat).
    assert (Hrot : forall r, (r < 3)%nat ->
              nth_error (qae_tape N L x w) (base + (3 * q + r))
              = nth_error [RX (w l q 0%nat) q; RY (w l q 1%nat) q;
                           RZ (w l q 2%nat) q] r).
    { intros r Hr. unfold base, N.
      rewrite qae_tape_layer by (fold N; lia).
      apply qae_layer_rot; assumption. }
    repeat split.
    + replace (base + 3 * q)%nat with (base + (3 * q + 0))%nat by lia.
      apply (Hrot 0%nat). lia.
    + replace (base + 3 * q + 1)%nat with (base + (3 * q + 1))%nat by lia.
      apply (Hrot 1%nat). lia.
    + replace (base + 3 * q + 2)%nat with (base + (3 * q + 2))%nat by lia.
      apply (Hrot 2%nat). lia.
    + replace (base + 3 * N + q)%nat with (base + (3 * N + q))%nat by lia.
      unfold base, N. rewrite qae_tape_layer by (fold N; lia).
      apply qae_layer_cnot. exact Hq.
  - intros l Hl. subst n. set (N := length x) in *.
    replace (N + l * (4 * N) + 3 * N + (N - 1))%nat
      with (N + l * (4 * N) + (3 * N + (N - 1)))%nat by lia.
    unfold N. rewrite qae_tape_layer by (fold N; lia).
    fold N. rewrite qae_layer_cnot by lia.
    replace (N - 1 + 1)%nat with N by lia.
    rewrite Nat.Div0.mod_same. reflexivity.
Qed.

Lemma forward_is_the_layered_circuit_witness :
  (2 <= 4)%nat /\ length [0; 0; 0; 0] = 4%nat /\
  let tape := qae_tape 4 4 [0; 0; 0; 0] (fun _ _ _ => 0) in
  (init_state 0%nat = C1 /\ forall i, i <> 0%nat -> init_state i = C0) /\
  qae_circuit 4 4 [0; 0; 0; 0] (fun _ _ _ => 0)
  = Ok (expval_PauliZ 4 (4 - 1) (exec 4 tape init_state)) /\
  (forall k o, nth_error tape k = Some o ->
     exec 4 (firstn (S k) tape) init_state
     = apply_op 4 o (exec 4 (firstn k tape) init_state)) /\
  length tape = (4 + 4 * (4 * 4))%nat /\
  (forall i, (i < 4)%nat ->
     nth_error tape i = Some (RY (nth i [0; 0; 0; 0] 0) i)) /\
  (forall l q, (l < 4)%nat -> (q < 4)%nat ->
     nth_error tape (4 + l * (4 * 4) + 3 * q) = Some (RX 0 q) /\
     nth_error tape (4 + l * (4 * 4) + 3 * q + 1) = Some (RY 0 q) /\
     nth_error tape (4 + l * (4 * 4) + 3 * q + 2) = Some (RZ 0 q) /\
     nth_error tape (4 + l * (4 * 4) + 3 * 4 + q)
     = Some (CNOT q ((q + 1) mod 4))) /\
  (forall l, (l < 4)%nat ->
     nth_error tape (4 + l * (4 * 4) + 3 * 4 + (4 - 1))
     = Some (CNOT (4 - 1) 0)).
Proof.
  assert (H2 : (2 <= 4)%nat) by lia.
  assert (H : length [0; 0; 0; 0] = 4%nat) by reflexivity.
  split; [exact H2|]. split; [exact H|].
  exact (forward_is_the_layered_circuit 4 4 [0; 0; 0; 0] (fun _ _ _ => 0)
           H2 H).
Defined.

(** ** Gates are linear *)

Lemma apply_1q_lin (n : nat) (U : Mat2) (w : nat) (a b : R)
    (phi chi : State) :
  apply_1q n U w (lin a phi b chi)
  = lin a (apply_1q n U w phi) b (apply_1q n U w chi).
Proof.
  apply functional_extensionality. intros i.
  unfold apply_1q, lin. cbv zeta.
  destruct (Nat.testbit i (bitpos n w)); csolve.
Qed.

Lemma apply_cnot_lin (n c t : nat) (a b : R) (phi chi : State) :
  apply_cnot n c t (lin a phi b chi)
  = lin a (apply_cnot n c t phi) b (apply_cnot n c t chi).
Proof.
  apply functional_extensionality. intros i.
  unfold apply_cnot, lin.
  destruct (Nat.testbit i (bitpos n c)); reflexivity.
Qed.

Lemma apply_op_lin (n : nat) (o : Op) (a b : R) (phi chi : State) :
  apply_op n o (lin a phi b chi)
  = lin a (apply_op n o phi) b (apply_op n o chi).
Proof.
  destruct o; simpl; (apply apply_1q_lin || apply apply_cnot_lin).
Qed.

Lemma exec_lin (n : nat) (tape : list Op) :
  forall (a b : R) (phi chi : State),
    exec n tape (lin a phi b chi)
    = lin a (exec n tape phi) b (exec n tape chi).
Proof.
  induction tape as [|o tape IH]; intros a b phi chi.
  - reflexivity.
  - simpl. rewrite apply_op_lin. apply IH.
Qed.

(** A rotation by [v] is cos(v/2) times the identity plus sin(v/2) times
    its generator. *)
Lemma rot_decompose (n a q : nat) (v : R) (phi : State) :
  apply_op n (rot a v q) phi
  = lin (cos (v / 2)) phi (sin (v / 2)) (apply_1q n (gen_matrix a) q phi).
Proof.
  apply functional_extensionality. intros i.
  destruct a as [|[|a]]; simpl; unfold apply_1q, lin; cbv zeta;
    destruct (Nat.testbit i (bitpos n q)); csolve.
Qed.

(** The measurement is a quadratic form of the state. *)
Lemma expval_lin (n w : nat) (a b : R) (phi chi : State) :
  expval_PauliZ n w (lin a phi b chi)
  = a * a * expval_PauliZ n w phi + b * b * expval_PauliZ n w chi
    + 2 * a * b * Zform n w phi chi.
Proof.
  unfold expval_PauliZ, Zform.
  rewrite <- !Rsum_scal, <- !Rsum_plus.
  apply Rsum_ext. intros i _.
  unfold lin, Cnorm2, Cdot. simpl. ring.
Qed.

(** ** One parameter, one gate *)

Lemma upd_other_layer (w : Tensor) (l q a : nat) (v : R) (l' : nat) :
  l' <> l -> upd w l q a v l' = w l'.
Proof.
  intros H. apply functional_extensionality. intros q'.
  apply functional_extensionality. intros a'.
  unfold upd. apply Nat.eqb_neq in H. rewrite H. reflexivity.
Qed.

Lemma upd_other_qubit (w : Tensor) (l q a : nat) (v : R) (q' a' : nat) :
  q' <> q -> upd w l q a v l q' a' = w l q' a'.
Proof.
  intros H. unfold upd. apply Nat.eqb_neq in H.
  rewrite H, andb_false_r. reflexivity.
Qed.

Lemma upd_other_axis (w : Tensor) (l q a : nat) (v : R) (a' : nat) :
  a' <> a -> upd w l q a v l q a' = w l q a'.
Proof.
  intros H. unfold upd. apply Nat.eqb_neq in H.
  rewrite H, andb_false_r. reflexivity.
Qed.

Lemma upd_same (w : Tensor) (l q a : nat) (v : R) :
  upd w l q a v l q a = v.
Proof. unfold upd. rewrite !Nat.eqb_refl. reflexivity. Qed.

Lemma flat_map_ext_in {A B} (f g : A -> list B) (l : list A) :
  (forall a, In a l -> f a = g a) -> flat_map f l = flat_map g l.
Proof.
  induction l as [|a l IH]; intros H; simpl; [reflexivity|].
  rewrite (H a) by (left; reflexivity).
  rewrite IH by (intros b Hb; apply H; right; exact Hb).
  reflexivity.
Qed.

Lemma seq_split (m k : nat) :
  (k < m)%nat -> seq 0 m = seq 0 k ++ k :: seq (S k) (m - S k).
Proof.
  intros H. replace m with (k + S (m - S k))%nat at 1 by lia.
  rewrite seq_app. reflexivity.
Qed.

Lemma qae_layer_split (n : nat) (w : Tensor) (l q a : nat) :
  (q < n)%nat -> (a < 3)%nat ->
  exists pre post : list Op,
    forall v, qae_layer n (upd w l q a v l) = pre ++ rot a v q :: post.
Proof.
  intros Hq Ha.
  set (rots := fun (th : nat -> nat -> R) (k : nat) =>
                 [RX (th k 0%nat) k; RY (th k 1%nat) k; RZ (th k 2%nat) k]).
  set (cnots := map (fun k => CNOT k ((k + 1) mod n)) (seq 0 n)).
  set (P0 := flat_map (rots (w l)) (seq 0 q)).
  set (P2 := flat_map (rots (w l)) (seq (S q) (n - S q))).
  assert (E : forall v,
             qae_layer n (upd w l q a v l)
             = P0 ++ rots (upd w l q a v l) q ++ P2 ++ cnots).
  { intros v. unfold qae_layer. fold cnots.
    change (flat_map _ (seq 0 n))
      with (flat_map (rots (upd w l q a v l)) (seq 0 n)).
    rewrite (seq_split n q Hq), flat_map_app. cbn [flat_map].
    rewrite <- !app_assoc. f_equal; [|f_equal; f_equal].
    - apply flat_map_ext_in. intros k Hk. apply in_seq in Hk.
      unfold rots. rewrite !upd_other_qubit by lia. reflexivity.
    - apply flat_map_ext_in. intros k Hk. apply in_seq in Hk.
      unfold rots. rewrite !upd_other_qubit by lia. reflexivity. }
  destruct a as [|[|[|a]]]; [| | |lia].
  - exists P0, ([RY (w l q 1%nat) q; RZ (w l q 2%nat) q] ++ P2 ++ cnots).
    intros v. rewrite E. unfold rots.
    rewrite upd_same, !upd_other_axis by lia. reflexivity.
  - exists (P0 ++ [RX (w l q 0%nat) q]), ([RZ (w l q 2%nat) q] ++ P2 ++ cnots).
    intros v. rewrite E. unfold rots.
    rewrite upd_same, !upd_other_axis by lia.
    rewrite <- app_assoc. reflexivity.
  - exists (P0 ++ [RX (w l q 0%nat) q; RY (w l q 1%nat) q]), (P2 ++ cnots).
    intros v. rewrite E. unfold rots.
    rewrite upd_same, !upd_other_axis by lia.
    rewrite <- app_assoc. reflexivity.
Qed.

Lemma qae_tape_split (n L : nat) (x : Sample) (w : Tensor) (l q a : nat) :
  (l < L)%nat -> (q < n)%nat -> (a < 3)%nat ->
  exists pre post : list Op,
    forall v, qae_tape n L x (upd w l q a v) = pre ++ rot a v q :: post.
Proof.
  intros Hl Hq Ha.
  destruct (qae_layer_split n w l q a Hq Ha) as (p & s & Hps).
  exists (AngleEmbedding x
          ++ flat_map (fun k => qae_layer n (w k)) (seq 0 l) ++ p).
  exists (s ++ flat_map (fun k => qae_layer n (w k)) (seq (S l) (L - S l))).
  intros v. unfold qae_tape.
  rewrite (seq_split L l Hl), flat_map_app. cbn [flat_map].
  rewrite Hps.
  rewrite (flat_map_ext_in (fun k => qae_layer n (upd w l q a v k))
             (fun k => qae_layer n (w k)) (seq 0 l)).
  - rewrite (flat_map_ext_in (fun k => qae_layer n (upd w l q a v k))
               (fun k => qae_layer n (w k)) (seq (S l) (L - S l))).
    + rewrite <- !app_assoc. reflexivity.
    + intros k Hk. apply in_seq in Hk.
      rewrite upd_other_layer by lia. reflexivity.
  - intros k Hk. apply in_seq in Hk.
    rewrite upd_other_layer by lia. reflexivity.
Qed.

(** As a function of one parameter the measurement is a quadratic form in
    cos(v/2) and sin(v/2). *)
Lemma forward_sinusoid (n L : nat) (x : Sample) (w : Tensor) (l q a : nat) :
  (l < L)%nat -> (q < n)%nat -> (a < 3)%nat ->
  exists A B D : R,
    forall v,
      forward n L x (upd w l q a v)
      = A * (cos (v / 2) * cos (v / 2)) + B * (sin (v / 2) * sin (v / 2))
        + D * (2 * cos (v / 2) * sin (v / 2)).
Proof.
  intros Hl Hq Ha.
  destruct (qae_tape_split n L x w l q a Hl Hq Ha) as (pre & post & Ht).
  set (phi := exec n pre init_state).
  set (chi := apply_1q n (gen_matrix a) q phi).
  exists (expval_PauliZ n (n - 1) (exec n post phi)).
  exists (expval_PauliZ n (n - 1) (exec n post chi)).
  exists (Zform n (n - 1) (exec n post phi) (exec n post chi)).
  intros v. unfold forward. rewrite Ht, exec_app.
  fold phi.
  change (exec n (rot a v q :: post) phi)
    with (exec n post (apply_op n (rot a v q) phi)).
  rewrite rot_decompose. fold chi.
  rewrite exec_lin, expval_lin. ring.
Qed.

(** ** The shift rule for a sinusoid *)

Lemma half_angle_form (A B D v : R) :
  A * (cos (v / 2) * cos (v / 2)) + B * (sin (v / 2) * sin (v / 2))
  + D * (2 * cos (v / 2) * sin (v / 2))
  = (A + B) / 2 + (A - B) / 2 * cos v + D * sin v.
Proof.
  pose proof (cos2_sin2_half v) as H1.
  pose proof (cos_2a (v / 2)) as Hc.
  pose proof (sin_2a (v / 2)) as Hs.
  replace (2 * (v / 2)) with v in Hc, Hs by field.
  rewrite Hc, Hs.
  set (c := cos (v / 2)) in *. set (s := sin (v / 2)) in *.
  replace ((A + B) / 2) with ((A + B) / 2 * (c * c + s * s))
    by (rewrite H1; ring).
  field.
Qed.

Lemma sinusoid_derivative (K M D theta : R) :
  derivable_pt_lim (fun v => K + M * cos v + D * sin v) theta
    (- M * sin theta + D * cos theta).
Proof.
  pose proof (derivable_pt_lim_const K theta) as H1.
  pose proof (derivable_pt_lim_scal cos M theta _
                (derivable_pt_lim_cos theta)) as H2.
  pose proof (derivable_pt_lim_scal sin D theta _
                (derivable_pt_lim_sin theta)) as H3.
  pose proof (derivable_pt_lim_plus _ _ _ _ _
                (derivable_pt_lim_plus _ _ _ _ _ H1 H2) H3) as H.
  unfold plus_fct, mult_real_fct, fct_cte in H.
  replace (- M * sin theta + D * cos theta)
    with (0 + M * - sin theta + D * cos theta) by ring.
  exact H.
Qed.

Lemma sinusoid_shift (K M D theta : R) :
  ((K + M * cos (theta + PI / 2) + D * sin (theta + PI / 2))
   - (K + M * cos (theta - PI / 2) + D * sin (theta - PI / 2))) / 2
  = - M * sin theta + D * cos theta.
Proof.
  rewrite cos_plus, cos_minus, sin_plus, sin_minus, cos_PI2, sin_PI2.
  field.
Qed.

Lemma upd_id (w : Tensor) (l q a : nat) : upd w l q a (w l q a) = w.
Proof.
  apply functional_extensionality. intros l'.
  apply functional_extensionality. intros q'.
  apply functional_extensionality. intros a'.
  unfold upd.
  destruct (Nat.eqb_spec l' l) as [->|]; [|reflexivity].
  destruct (Nat.eqb_spec q' q) as [->|]; [|reflexivity].
  destruct (Nat.eqb_spec a' a) as [->|]; reflexivity.
Qed.

(** C1: the parameter-shift rule.  For a register of at least two wires, a
    sample with as many features as wires and every entry (l, q, a) of the
    L x n x 3 parameter tensor, with all other entries held fixed: the
    circuit returns its expectation value E(v) when the entry is set to v
    (and E at the entry's own value is the circuit at the tensor itself), E
    is differentiable in v at every theta, and its derivative there is
    exactly (E(theta + PI/2) - E(theta - PI/2)) / 2. *)
Theorem parameter_shift_rule (n L : nat) (x : Sample) (w : Tensor)
    (l q a : nat) (theta : R) :
  (2 <= n)%nat -> length x = n ->
  (l < L)%nat -> (q < n)%nat -> (a < 3)%nat ->
  (forall v, qae_circuit n L x (upd w l q a v)
             = Ok (forward n L x (upd w l q a v))) /\
  forward n L x (upd w l q a (w l q a)) = forward n L x w /\
  derivable_pt_lim (fun v => forward n L x (upd w l q a v)) theta
    ((forward n L x (upd w l q a (theta + PI / 2))
      - forward n L x (upd w l q a (theta - PI / 2))) / 2).
Proof.
  intros Hn Hx Hl Hq Ha.
  split; [intros v; apply qae_circuit_ok; lia|].
  split; [rewrite upd_id; reflexivity|].
  destruct (forward_sinusoid n L x w l q a Hl Hq Ha) as (A & B & D & HE).
  assert (HF : (fun v => forward n L x (upd w l q a v))
               = (fun v => (A + B) / 2 + (A - B) / 2 * cos v + D * sin v)).
  { apply functional_extensionality. intros v.
    rewrite HE. apply half_angle_form. }
  rewrite HF.
  rewrite (HE (theta + PI / 2)), (HE (theta - PI / 2)).
  rewrite !half_angle_form, sinusoid_shift.
  apply sinusoid_derivative.
Qed.

Lemma parameter_shift_rule_witness :
  (2 <= 4)%nat /\ length [0; 0; 0; 0] = 4%nat /\
  (3 < 4)%nat /\ (2 < 4)%nat /\ (1 < 3)%nat /\
  (forall v, qae_circuit 4 4 [0; 0; 0; 0] (upd (fun _ _ _ => 0) 3 2 1 v)
             = Ok (forward 4 4 [0; 0; 0; 0] (upd (fun _ _ _ => 0) 3 2 1 v))) /\
  forward 4 4 [0; 0; 0; 0] (upd (fun _ _ _ => 0) 3 2 1 0)
  = forward 4 4 [0; 0; 0; 0] (fun _ _ _ => 0) /\
  derivable_pt_lim
    (fun v => forward 4 4 [0; 0; 0; 0] (upd (fun _ _ _ => 0) 3 2 1 v)) 0
    ((forward 4 4 [0; 0; 0; 0] (upd (fun _ _ _ => 0) 3 2 1 (0 + PI / 2))
      - forward 4 4 [0; 0; 0; 0] (upd (fun _ _ _ => 0) 3 2 1 (0 - PI / 2)))
     / 2).
Proof.
  assert (Hn : (2 <= 4)%nat) by lia.
  assert (H0 : length [0; 0; 0; 0] = 4%nat) by reflexivity.
  assert (H1 : (3 < 4)%nat) by lia.
  assert (H2 : (2 < 4)%nat) by lia.
  assert (H3 : (1 < 3)%nat) by lia.
  split; [exact Hn|].
  split; [exact H0|]. split; [exact H1|]. split; [exact H2|].
  split; [exact H3|].
  exact (parameter_shift_rule 4 4 [0; 0; 0; 0] (fun _ _ _ => 0) 3 2 1 0
           Hn H0 H1 H2 H3).
Defined.

(** ** Checks of the model on concrete inputs *)

(** On two wires, CNOT from wire 0 to wire 1 maps |10> to |11> and back and
    leaves |00> and |01> alone (wire 0 is the high bit). *)
Example cnot_truth_table :
  map (cnot_index (bitpos 2 0) (bitpos 2 1)) [0; 1; 2; 3]%nat
  = [0; 1; 3; 2]%nat.
Proof. reflexivity. Qed.

(** The ring of a four-wire layer. *)
Example ring_of_four :
  map (fun w => CNOT w ((w + 1) mod 4)) (seq 0 4)
  = [CNOT 0 1; CNOT 1 2; CNOT 2 3; CNOT 3 0].
Proof. reflexivity. Qed.

(** A rotation by angle zero is the identity. *)
Lemma zero_angle_identity (n a q : nat) (psi : State) :
  apply_op n (rot a 0 q) psi = psi.
Proof.
  rewrite rot_decompose.
  replace (0 / 2) with 0 by field. rewrite cos_0, sin_0.
  apply functional_extensionality. intros i. unfold lin. csolve.
Qed.

(** RY(PI) takes the one-wire register from |0> to |1>: <Z> = -1. *)
Example RY_pi_flips :
  expval_PauliZ 1 0 (exec 1 [RY PI 0] init_state) = -1.
Proof.
  unfold expval_PauliZ, Rsum, exec, apply_op, apply_1q, Zsign, Cnorm2.
  simpl. rewrite cos_PI2, sin_PI2. ring.
Qed.

(** Without any gate the measurement is +1. *)
Example init_measures_plus_one (n : nat) :
  expval_PauliZ n (n - 1) init_state = 1.
Proof.
  unfold expval_PauliZ.
  assert (H : (2 ^ n <> 0)%nat) by (apply Nat.pow_nonzero; lia).
  destruct (2 ^ n)%nat as [|m]; [contradiction|].
  rewrite Rsum_S.
  rewrite (Rsum_ext (fun i => Zsign (bitpos n (n - 1)) (S i)
                              * Cnorm2 (init_state (S i))) (fun _ => 0)).
  - rewrite Rsum_zero. unfold Zsign, Cnorm2.
    rewrite Nat.bits_0. simpl. ring.
  - intros i _. unfold Cnorm2. simpl. ring.
Qed.

(** The notebook's circuit queues 4 + 4 * 16 = 68 gates. *)
Example notebook_tape_length (x : Sample) (w : Tensor) :
  length x = Notebook.n_qubits ->
  length (qae_tape Notebook.n_qubits Notebook.L x w) = 68%nat.
Proof. intros H. rewrite qae_tape_length, H. reflexivity. Qed.

Example py_range_5_2 : py_range 0 5 2 = Ok [0; 2; 4]%nat.
Proof. reflexivity. Qed.

Example py_range_zero_step : py_range 0 5 0 = Raise ValueError.
Proof. reflexivity. Qed.

(** The notebook's run: 756 samples in batches of 16 make 48 mini-batches,
    the last one of 4 samples. *)
Example notebook_batches :
  ((756 + Notebook.batch_size - 1) / Notebook.batch_size = 48)%nat /\
  Nat.min Notebook.batch_size (756 - 47 * Notebook.batch_size) = 4%nat.
Proof. split; reflexivity. Qed.

(** Section 8 of the spec: fidelities 0.9, 0.8, 0.95, 0.2, 0.1 with labels
    0, 0, 0, 1, 1 at threshold 0.5 give TP = 2, FN = 0, TN = 3, FP = 0. *)
Example y_pred_example :
  y_pred [9 / 10; 8 / 10; 95 / 100; 2 / 10; 1 / 10] (5 / 10)
  = [false; false; false; true; true].
Proof.
  unfold y_pred, flag. simpl.
  repeat match goal with
         | |- context [Rlt_dec ?a ?b] => destruct (Rlt_dec a b); try lra
         end.
  reflexivity.
Qed.

Example confusion_example :
  exists m,
    metrics [false; false; false; true; true]
            [false; false; false; true; true] = Ok m /\
    (TN m, FP m, FN m, TP m) = (3, 0, 0, 2)%nat /\ Accuracy m = Num 1.
Proof.
  eexists. split; [reflexivity|]. split; [reflexivity|].
  cbn. f_equal. field.
Qed.

(** * Further properties of the notebook's code *)

(** ** Loops that may raise *)

Lemma exn_unique (e : Exn) : e = ValueError.
Proof. destruct e. reflexivity. Qed.

Lemma mapM_ok {A B} (f : A -> Result B) (g : A -> B) (l : list A) :
  (forall x, In x l -> f x = Ok (g x)) -> mapM f l = Ok (map g l).
Proof.
  induction l as [|a l IH]; intros H; simpl; [reflexivity|].
  rewrite (H a) by (left; reflexivity). simpl.
  rewrite IH by (intros x Hx; apply H; right; exact Hx).
  reflexivity.
Qed.

Lemma mapM_raise {A B} (f : A -> Result B) (l : list A) :
  Exists (fun x => exists e, f x = Raise e) l ->
  mapM f l = Raise ValueError.
Proof.
  induction 1 as [a l (e & He)|a l _ IH]; simpl.
  - rewrite He. simpl. f_equal. apply exn_unique.
  - destruct (f a) as [b|e]; simpl.
    + rewrite IH. reflexivity.
    + f_equal. apply exn_unique.
Qed.

Lemma foldM_app {S A} (f : S -> A -> Result S) (l1 l2 : list A) (s : S) :
  foldM f (l1 ++ l2) s = (s' <- foldM f l1 s ;; foldM f l2 s').
Proof.
  revert s. induction l1 as [|a l1 IH]; intros s; simpl; [reflexivity|].
  destruct (f s a) as [s1|e]; simpl; [apply IH | reflexivity].
Qed.

(** ** The cost function *)

Lemma qae_circuit_raise (n L : nat) (x : Sample) (w : Tensor) :
  (n < length x)%nat -> qae_circuit n L x w = Raise ValueError.
Proof.
  intros H. unfold qae_circuit.
  destruct (Nat.leb_spec (length x) n); [lia | reflexivity].
Qed.

Lemma valid_sample_dec (n : nat) (X : list Sample) :
  Forall (valid_sample n) X \/ Exists (fun x => (n < length x)%nat) X.
Proof.
  induction X as [|x X [IH|IH]].
  - left. constructor.
  - destruct (Nat.le_gt_cases (length x) n) as [H|H].
    + left. constructor; assumption.
    + right. left. exact H.
  - right. right. exact IH.
Qed.

Lemma cost_fn_ok (n L : nat) (w : Tensor) (X : list Sample) :
  X <> [] -> Forall (valid_sample n) X ->
  cost_fn n L w X = Ok (cost_value n L w X).
Proof.
  intros Hne HX. unfold cost_fn, cost_value.
  rewrite (mapM_ok _ (fun x => forward n L x w)).
  - simpl bind. rewrite !map_map.
    destruct X as [|x X]; [contradiction | reflexivity].
  - intros x Hx. apply qae_circuit_ok.
    rewrite Forall_forall in HX. apply HX. exact Hx.
Qed.





(** X2: in a register of at least two wires [cost_fn] raises exactly when
    the batch is empty or holds a sample with more features than there are
    wires. *)
Theorem cost_fn_raises_iff (n L : nat) (w : Tensor) (X : list Sample) :
  (2 <= n)%nat ->
  (cost_fn n L w X = Raise ValueError <->
   X = [] \/ Exists (fun x => (n < length x)%nat) X).
Proof.
  intros _. split.
  - intros H. destruct X as [|x X']; [left; reflexivity|]. right.
    destruct (valid_sample_dec n (x :: X')) as [HX|HX]; [|exact HX].
    rewrite cost_fn_ok in H by (discriminate || exact HX). discriminate.
  - intros [->|HX]; [reflexivity|].
    unfold cost_fn. rewrite mapM_raise; [reflexivity|].
    apply Exists_exists. apply Exists_exists in HX.
    destruct HX as (x & Hx & Hlen). exists x. split; [exact Hx|].
    exists ValueError. apply qae_circuit_raise. exact Hlen.
Qed.

Lemma cost_fn_raises_iff_witness :
  (2 <= 4)%nat /\
  (cost_fn 4 4 (fun _ _ _ => 0) [[0; 0; 0; 0; 0]] = Raise ValueError <->
   [[0; 0; 0; 0; 0]] = []
   \/ Exists (fun x => (4 < length x)%nat) [[0; 0; 0; 0; 0]]).
Proof.
  assert (H : (2 <= 4)%nat) by lia.
  split; [exact H|].
  exact (cost_fn_raises_iff 4 4 (fun _ _ _ => 0) [[0; 0; 0; 0; 0]] H).
Defined.

(** ** Scoring of a test set *)

Lemma p0_test_ok (n L : nat) (w : Tensor) (X : list Sample) :
  Forall (valid_sample n) X ->
  p0_test n L w X = Ok (map (fun x => (forward n L x w + 1) / 2) X).
Proof.
  intros HX. unfold p0_test. apply mapM_ok. intros x Hx.
  unfold fidelity. rewrite qae_circuit_ok; [reflexivity|].
  rewrite Forall_forall in HX. apply HX. exact Hx.
Qed.





(** X5: in a register of at least two wires scoring raises exactly when
    some sample of the test set has more features than there are wires; an
    empty test set does not raise. *)
Theorem p0_test_raises_iff (n L : nat) (w : Tensor) (X : list Sample) :
  (2 <= n)%nat ->
  (p0_test n L w X = Raise ValueError <->
   Exists (fun x => (n < length x)%nat) X) /\
  p0_test n L w [] = Ok [].
Proof.
  intros _. split; [|reflexivity]. split.
  - intros H. destruct (valid_sample_dec n X) as [HX|HX]; [|exact HX].
    rewrite p0_test_ok in H by exact HX. discriminate.
  - intros HX. unfold p0_test. apply mapM_raise.
    apply Exists_exists. apply Exists_exists in HX.
    destruct HX as (x & Hx & Hlen). exists x. split; [exact Hx|].
    exists ValueError. unfold fidelity.
    rewrite qae_circuit_raise by exact Hlen. reflexivity.
Qed.

Lemma p0_test_raises_iff_witness :
  (2 <= 4)%nat /\
  (p0_test 4 4 (fun _ _ _ => 0) [[0; 0; 0; 0]; [0; 0; 0; 0; 0]]
   = Raise ValueError <->
   Exists (fun x => (4 < length x)%nat)
          [[0; 0; 0; 0]; [0; 0; 0; 0; 0]]) /\
  p0_test 4 4 (fun _ _ _ => 0) [] = Ok [].
Proof.
  assert (H : (2 <= 4)%nat) by lia.
  split; [exact H|].
  exact (p0_test_raises_iff 4 4 (fun _ _ _ => 0)
           [[0; 0; 0; 0]; [0; 0; 0; 0; 0]] H).
Defined.

(** ** The shift rule for the cost *)

Lemma sinusoid_shift_rule (f : R -> R) (K M D : R) :
  (forall v, f v = K + M * cos v + D * sin v) ->
  forall theta,
    derivable_pt_lim f theta
      ((f (theta + PI / 2) - f (theta - PI / 2)) / 2).
Proof.
  intros Hf theta.
  assert (E : f = (fun v => K + M * cos v + D * sin v))
    by (apply functional_extensionality; exact Hf).
  rewrite !Hf, sinusoid_shift. rewrite E.
  apply sinusoid_derivative.
Qed.

Lemma forward_trig (n L : nat) (x : Sample) (w : Tensor) (l q a : nat) :
  (l < L)%nat -> (q < n)%nat -> (a < 3)%nat ->
  exists K M D : R,
    forall v,
      forward n L x (upd w l q a v) = K + M * cos v + D * sin v.
Proof.
  intros Hl Hq Ha.
  destruct (forward_sinusoid n L x w l q a Hl Hq Ha) as (A & B & D & HE).
  exists ((A + B) / 2), ((A - B) / 2), D.
  intros v. rewrite HE. apply half_angle_form.
Qed.

Lemma error_sum_trig (n L : nat) (w : Tensor) (l q a : nat)
    (X : list Sample) :
  (l < L)%nat -> (q < n)%nat -> (a < 3)%nat ->
  exists K M D : R,
    forall v,
      sum_list (map (fun x => 1 - (1 + forward n L x (upd w l q a v)) / 2)
                    X)
      = K + M * cos v + D * sin v.
Proof.
  intros Hl Hq Ha. induction X as [|x X (K & M & D & IH)].
  - exists 0, 0, 0. intros v. simpl. ring.
  - destruct (forward_trig n L x w l q a Hl Hq Ha) as (K1 & M1 & D1 & H1).
    exists (1 / 2 - K1 / 2 + K), (- M1 / 2 + M), (- D1 / 2 + D).
    intros v. simpl. rewrite IH, H1. field.
Qed.

Lemma cost_value_trig (n L : nat) (w : Tensor) (l q a : nat)
    (X : list Sample) :
  (l < L)%nat -> (q < n)%nat -> (a < 3)%nat ->
  exists K M D : R,
    forall v,
      cost_value n L (upd w l q a v) X = K + M * cos v + D * sin v.
Proof.
  intros Hl Hq Ha.
  destruct (error_sum_trig n L w l q a X Hl Hq Ha) as (K & M & D & H).
  exists (K / INR (length X)), (M / INR (length X)), (D / INR (length X)).
  intros v. unfold cost_value, mean.
  rewrite H, length_map. unfold Rdiv. ring.
Qed.

(** X6: the shift rule holds for the batch cost.  In a register of at
    least two wires, for a non-empty batch of samples with at most as many
    features as wires and every entry (l, q, a) of the parameter tensor,
    [cost_fn] returns a cost C(v) when the entry is set to v, C is
    differentiable in v, and its derivative at theta is exactly
    (C(theta + PI/2) - C(theta - PI/2)) / 2. *)
Theorem cost_parameter_shift (n L : nat) (w : Tensor) (X : list Sample)
    (l q a : nat) (theta : R) :
  (2 <= n)%nat -> (0 < length X)%nat -> Forall (valid_sample n) X ->
  (l < L)%nat -> (q < n)%nat -> (a < 3)%nat ->
  (forall v, cost_fn n L (upd w l q a v) X
             = Ok (cost_value n L (upd w l q a v) X)) /\
  derivable_pt_lim (fun v => cost_value n L (upd w l q a v) X) theta
    ((cost_value n L (upd w l q a (theta + PI / 2)) X
      - cost_value n L (upd w l q a (theta - PI / 2)) X) / 2).
Proof.
  intros _ Hlen HX Hl Hq Ha. split.
  - intros v. apply cost_fn_ok; [|exact HX].
    destruct X; [simpl in Hlen; lia | discriminate].
  - destruct (cost_value_trig n L w l q a X Hl Hq Ha) as (K & M & D & H).
    apply (sinusoid_shift_rule
             (fun v => cost_value n L (upd w l q a v) X) K M D H).
Qed.

Lemma cost_parameter_shift_witness :
  (2 <= 4)%nat /\ (0 < length [[0; 0; 0; 0]])%nat /\
  Forall (valid_sample 4) [[0; 0; 0; 0]] /\
  (0 < 4)%nat /\ (1 < 4)%nat /\ (2 < 3)%nat /\
  (forall v, cost_fn 4 4 (upd (fun _ _ _ => 0) 0 1 2 v) [[0; 0; 0; 0]]
             = Ok (cost_value 4 4 (upd (fun _ _ _ => 0) 0 1 2 v)
                     [[0; 0; 0; 0]])) /\
  derivable_pt_lim
    (fun v => cost_value 4 4 (upd (fun _ _ _ => 0) 0 1 2 v) [[0; 0; 0; 0]])
    0
    ((cost_value 4 4 (upd (fun _ _ _ => 0) 0 1 2 (0 + PI / 2))
        [[0; 0; 0; 0]]
      - cost_value 4 4 (upd (fun _ _ _ => 0) 0 1 2 (0 - PI / 2))
          [[0; 0; 0; 0]]) / 2).
Proof.
  assert (H0 : (2 <= 4)%nat) by lia.
  assert (H1 : (0 < length [[0; 0; 0; 0]])%nat) by (simpl; lia).
  assert (H2 : Forall (valid_sample 4) [[0; 0; 0; 0]])
    by (repeat constructor; unfold valid_sample; simpl; lia).
  assert (H3 : (0 < 4)%nat) by lia.
  assert (H4 : (1 < 4)%nat) by lia.
  assert (H5 : (2 < 3)%nat) by lia.
  split; [exact H0|].
  split; [exact H1|]. split; [exact H2|]. split; [exact H3|].
  split; [exact H4|]. split; [exact H5|].
  exact (cost_parameter_shift 4 4 (fun _ _ _ => 0) [[0; 0; 0; 0]] 0 1 2 0
           H0 H1 H2 H3 H4 H5).
Defined.

(** ** What the circuit reads *)

(** X8: the circuit reads only the L x n x 3 entries of the parameter
    tensor: two tensors that agree on every entry (l, q, a) with l < L,
    q < n, a < 3 queue the same gates and give the same result. *)
Theorem circuit_reads_only_its_shape (n L : nat) (x : Sample)
    (w w' : Tensor) :
  (forall l q a, (l < L)%nat -> (q < n)%nat -> (a < 3)%nat ->
                 w l q a = w' l q a) ->
  qae_tape n L x w = qae_tape n L x w' /\
  qae_circuit n L x w = qae_circuit n L x w'.
Proof.
  intros H.
  assert (E : qae_tape n L x w = qae_tape n L x w').
  { unfold qae_tape. f_equal. apply flat_map_ext_in. intros l Hl.
    apply in_seq in Hl. unfold qae_layer. f_equal.
    apply flat_map_ext_in. intros q Hq. apply in_seq in Hq.
    rewrite !H by lia. reflexivity. }
  split; [exact E|].
  unfold qae_circuit, forward. rewrite E. reflexivity.
Qed.

Lemma circuit_reads_only_its_shape_witness :
  (forall l q a, (l < 4)%nat -> (q < 4)%nat -> (a < 3)%nat ->
     (fun _ _ _ : nat => 0) l q a
     = (fun l' _ _ : nat => if (l' <? 4)%nat then 0 else 1) l q a) /\
  qae_tape 4 4 [0; 0; 0; 0] (fun _ _ _ => 0)
  = qae_tape 4 4 [0; 0; 0; 0]
      (fun l' _ _ => if (l' <? 4)%nat then 0 else 1) /\
  qae_circuit 4 4 [0; 0; 0; 0] (fun _ _ _ => 0)
  = qae_circuit 4 4 [0; 0; 0; 0]
      (fun l' _ _ => if (l' <? 4)%nat then 0 else 1).
Proof.
  assert (H : forall l q a, (l < 4)%nat -> (q < 4)%nat -> (a < 3)%nat ->
     (fun _ _ _ : nat => 0) l q a
     = (fun l' _ _ : nat => if (l' <? 4)%nat then 0 else 1) l q a).
  { intros l q a Hl _ _. simpl. apply Nat.ltb_lt in Hl. rewrite Hl.
    reflexivity. }
  split; [exact H|].
  exact (circuit_reads_only_its_shape 4 4 [0; 0; 0; 0] _ _ H).
Defined.

Lemma ring_targets (n : nat) :
  (1 <= n)%nat ->
  map (fun w => (w + 1) mod n) (seq 0 n) = seq 1 (n - 1) ++ [0%nat].
Proof.
  intros Hn. destruct n as [|m]; [lia|].
  replace (S m - 1)%nat with m by lia.
  rewrite seq_S, map_app. f_equal.
  - rewrite <- seq_shift. apply map_ext_in.
    intros k Hk. apply in_seq in Hk.
    rewrite Nat.mod_small by lia. lia.
  - cbn [map]. f_equal.
    replace (0 + m + 1)%nat with (S m) by lia.
    apply Nat.Div0.mod_same.
Qed.

Lemma combine_self_map {A B} (f : A -> B) (l : list A) :
  combine l (map f l) = map (fun x => (x, f x)) l.
Proof.
  induction l as [|a l IH]; simpl; [reflexivity|].
  rewrite IH. reflexivity.
Qed.

(** X9: the entangling ring of a layer.  In a register of at least one
    wire, the gates of a layer after its 3n rotations are n CNOTs whose
    controls are the wires 0, 1, ..., n-1 in order and whose targets are
    1, 2, ..., n-1, 0: every wire is the control of exactly one CNOT and the
    target of exactly one. *)
Theorem layer_ring_wires (n : nat) (theta : nat -> nat -> R) :
  (1 <= n)%nat ->
  skipn (3 * n) (qae_layer n theta)
  = map (fun p => CNOT (fst p) (snd p))
        (combine (seq 0 n) (seq 1 (n - 1) ++ [0%nat])) /\
  Permutation (seq 1 (n - 1) ++ [0%nat]) (seq 0 n).
Proof.
  intros Hn. split.
  - unfold qae_layer. rewrite skipn_app.
    rewrite (flat_map_block_length _ 3) by reflexivity.
    rewrite length_seq.
    replace (3 * n - n * 3)%nat with 0%nat by lia.
    rewrite skipn_all2
      by (rewrite (flat_map_block_length _ 3), length_seq
            by reflexivity; lia).
    simpl. rewrite <- (ring_targets n Hn).
    rewrite combine_self_map, map_map. reflexivity.
  - rewrite Permutation_app_comm. simpl.
    replace n with (S (n - 1)) at 2 by lia. reflexivity.
Qed.

Lemma layer_ring_wires_witness :
  (1 <= 4)%nat /\
  skipn (3 * 4) (qae_layer 4 (fun _ _ => 0))
  = map (fun p => CNOT (fst p) (snd p))
        (combine (seq 0 4) (seq 1 (4 - 1) ++ [0%nat])) /\
  Permutation (seq 1 (4 - 1) ++ [0%nat]) (seq 0 4).
Proof.
  assert (H : (1 <= 4)%nat) by lia.
  split; [exact H | exact (layer_ring_wires 4 (fun _ _ => 0) H)].
Defined.

(** ** The training loop *)




Lemma leading_slice_nonempty {A} (X : list A) (bs : nat) :
  (0 < bs)%nat -> (0 < length X)%nat -> slice X 0 bs <> [].
Proof.
  intros Hbs HX E. apply (f_equal (@length A)) in E.
  rewrite slice_length in E. simpl in E. lia.
Qed.


Section LoopFacts.

Variables n L : nat.
Variable OptState : Type.
Variable opt_step :
  OptState -> (Tensor -> Result R) -> Tensor -> Result (Tensor * OptState).

(** The optimizer returns a new state whenever the cost it is given never
    raises. *)
Hypothesis opt_step_total :
  forall s f w, (forall w', exists c, f w' = Ok c) ->
                exists r, opt_step s f w = Ok r.





End LoopFacts.



Section LoopShape.

Variables n L : nat.
Variable OptState : Type.
Variable opt_step :
  OptState -> (Tensor -> Result R) -> Tensor -> Result (Tensor * OptState).

Lemma same_model_refl (s : TrainState OptState) : same_model s s.
Proof. split; reflexivity. Qed.

Lemma batch_step_same (s1 s2 s1' : TrainState OptState) (b : list Sample) :
  same_model s1 s2 ->
  batch_step n L OptState opt_step s1 b = Ok s1' ->
  exists s2', batch_step n L OptState opt_step s2 b = Ok s2' /\
              same_model s1' s2'.
Proof.
  intros [Hw Ho]. unfold batch_step. rewrite Hw, Ho.
  destruct (opt_step (opt_of OptState s2) (fun w => cost_fn n L w b)
              (weights_of OptState s2)) as [r|e]; simpl; [|discriminate].
  intros H. injection H as <-. eexists. split; [reflexivity|].
  split; reflexivity.
Qed.

Lemma batches_same (bl : list (list Sample)) :
  forall s1 s2 s1',
    same_model s1 s2 ->
    foldM (batch_step n L OptState opt_step) bl s1 = Ok s1' ->
    exists s2', foldM (batch_step n L OptState opt_step) bl s2 = Ok s2' /\
                same_model s1' s2'.
Proof.
  induction bl as [|b bl IH]; intros s1 s2 s1' Hs H; simpl in *.
  - injection H as <-. exists s2. split; [reflexivity | exact Hs].
  - destruct (batch_step n L OptState opt_step s1 b) as [t1|e] eqn:E1;
      simpl in H; [|discriminate].
    destruct (batch_step_same s1 s2 t1 b Hs E1) as (t2 & E2 & Ht).
    rewrite E2. simpl. apply (IH t1 t2 s1' Ht H).
Qed.

Lemma train_epoch_batches (X : list Sample) (bs : nat)
    (st st' : TrainState OptState) (epoch : nat) (bl : list (list Sample)) :
  epoch_batches 0 X bs = Ok bl ->
  train_epoch n L OptState opt_step X bs st epoch = Ok st' ->
  exists st'', foldM (batch_step n L OptState opt_step) bl st = Ok st'' /\
               same_model st'' st'.
Proof.
  intros Hbl. unfold train_epoch.
  change (epoch_batches epoch X bs) with (epoch_batches 0 X bs).
  rewrite Hbl. simpl.
  destruct (foldM (batch_step n L OptState opt_step) bl st) as [s1|e];
    simpl; [|discriminate].
  destruct (cost_fn n L (weights_of OptState s1) (slice X 0 bs))
    as [c|e]; simpl; [|discriminate].
  intros H. injection H as <-. exists s1. split; [reflexivity|].
  split; reflexivity.
Qed.

Lemma epochs_batches (X : list Sample) (bs : nat)
    (bl : list (list Sample)) :
  epoch_batches 0 X bs = Ok bl ->
  forall k s st st',
    foldM (train_epoch n L OptState opt_step X bs) (seq s k) st = Ok st' ->
    exists st'',
      foldM (batch_step n L OptState opt_step) (concat (repeat bl k)) st
      = Ok st'' /\ same_model st'' st'.
Proof.
  intros Hbl. induction k as [|k IH]; intros s st st' H; simpl in H.
  - injection H as <-. exists st. split; [reflexivity|].
    apply same_model_refl.
  - destruct (train_epoch n L OptState opt_step X bs st s) as [s1|e] eqn:E;
      simpl in H; [|discriminate].
    destruct (train_epoch_batches X bs st s1 s bl Hbl E) as (t1 & F1 & S1).
    destruct (IH (S s) s1 st' H) as (t2 & F2 & S2).
    assert (S1' : same_model s1 t1) by (destruct S1; split; congruence).
    destruct (batches_same (concat (repeat bl k)) s1 t1 t2 S1' F2)
      as (t3 & F3 & S3).
    exists t3. split.
    + simpl. rewrite foldM_app, F1. simpl. exact F3.
    + destruct S2, S3. split; congruence.
Qed.

End LoopShape.

Lemma length_concat_repeat {A} (bl : list A) (k : nat) :
  length (concat (repeat bl k)) = (k * length bl)%nat.
Proof.
  induction k as [|k IH]; simpl; [reflexivity|].
  rewrite length_app, IH. reflexivity.
Qed.

(** X11: what the loop does to the model.  With a positive batch size, if a
    training run returns, its weights and optimizer state are those
    obtained by applying the optimizer step to the mini-batches of one
    epoch, in order, repeated epochs times: epochs * ceil(N / batch_size)
    steps in all; the loss reports between epochs do not change the
    model. *)
Theorem train_is_fold_over_batches (n L : nat) (OptState : Type)
    (opt_step : OptState -> (Tensor -> Result R) -> Tensor
                -> Result (Tensor * OptState))
    (epochs bs : nat) (X : list Sample) (st st' : TrainState OptState) :
  (0 < bs)%nat ->
  train n L OptState opt_step epochs X bs st = Ok st' ->
  exists bl st'',
    epoch_batches 0 X bs = Ok bl /\
    length bl = ((length X + bs - 1) / bs)%nat /\
    length (concat (repeat bl epochs))
    = (epochs * ((length X + bs - 1) / bs))%nat /\
    foldM (batch_step n L OptState opt_step) (concat (repeat bl epochs)) st
    = Ok st'' /\
    weights_of OptState st'' = weights_of OptState st' /\
    opt_of OptState st'' = opt_of OptState st'.
Proof.
  intros Hbs Htrain.
  pose proof (epoch_batches_ok 0 X bs Hbs) as Hbl.
  destruct (epochs_batches n L OptState opt_step X bs _ Hbl epochs 0%nat
              st st' Htrain) as (st'' & F & Hw & Ho).
  eexists. exists st''. split; [exact Hbl|].
  split; [rewrite length_map, length_seq; reflexivity|].
  split; [rewrite length_concat_repeat, length_map, length_seq;
          reflexivity|].
  split; [exact F|]. split; assumption.
Qed.

Lemma train_is_fold_over_batches_witness :
  (0 < 16)%nat /\
  train 4 4 unit (fun s _ w => Ok (w, s)) 1 [[0; 0; 0; 0]] 16
        (mkTrainState unit (fun _ _ _ => 0) tt [])
  = Ok (mkTrainState unit (fun _ _ _ => 0) tt
          [(1%nat, cost_value 4 4 (fun _ _ _ => 0) [[0; 0; 0; 0]])]) /\
  exists bl st'',
    epoch_batches 0 [[0; 0; 0; 0]] 16 = Ok bl /\
    length bl = ((length [[0; 0; 0; 0]] + 16 - 1) / 16)%nat /\
    length (concat (repeat bl 1))
    = (1 * ((length [[0; 0; 0; 0]] + 16 - 1) / 16))%nat /\
    foldM (batch_step 4 4 unit (fun s _ w => Ok (w, s)))
          (concat (repeat bl 1))
          (mkTrainState unit (fun _ _ _ => 0) tt [])
    = Ok st'' /\
    weights_of unit st''
    = weights_of unit
        (mkTrainState unit (fun _ _ _ => 0) tt
           [(1%nat, cost_value 4 4 (fun _ _ _ => 0) [[0; 0; 0; 0]])]) /\
    opt_of unit st''
    = opt_of unit
        (mkTrainState unit (fun _ _ _ => 0) tt
           [(1%nat, cost_value 4 4 (fun _ _ _ => 0) [[0; 0; 0; 0]])]).
Proof.
  assert (H1 : (0 < 16)%nat) by lia.
  assert (H2 : train 4 4 unit (fun s _ w => Ok (w, s)) 1 [[0; 0; 0; 0]] 16
                 (mkTrainState unit (fun _ _ _ => 0) tt [])
               = Ok (mkTrainState unit (fun _ _ _ => 0) tt
                       [(1%nat,
                         cost_value 4 4 (fun _ _ _ => 0) [[0; 0; 0; 0]])]))
    by reflexivity.
  split; [exact H1|]. split; [exact H2|].
  exact (train_is_fold_over_batches 4 4 unit (fun s _ w => Ok (w, s)) 1 16
           [[0; 0; 0; 0]] _ _ H1 H2).
Defined.

(** X12: a batch size of zero makes the run fail: for every dataset, a run
    of at least one epoch raises in its first epoch, where the batch
    indices are a range of step zero. *)
Theorem zero_batch_size_raises (n L : nat) (OptState : Type)
    (opt_step : OptState -> (Tensor -> Result R) -> Tensor
                -> Result (Tensor * OptState))
    (epochs : nat) (X : list Sample) (st : TrainState OptState) :
  (1 <= epochs)%nat ->
  train n L OptState opt_step epochs X 0 st = Raise ValueError.
Proof.
  intros He. unfold train. destruct epochs as [|k]; [lia|].
  simpl seq. apply foldM_raise. reflexivity.
Qed.

Lemma zero_batch_size_raises_witness :
  (1 <= 50)%nat /\
  train 4 4 unit (fun s _ w => Ok (w, s)) 50 [[0; 0; 0; 0]] 0
        (mkTrainState unit (fun _ _ _ => 0) tt []) = Raise ValueError.
Proof.
  assert (H : (1 <= 50)%nat) by lia.
  split; [exact H|].
  exact (zero_batch_size_raises 4 4 unit (fun s _ w => Ok (w, s)) 50
           [[0; 0; 0; 0]] (mkTrainState unit (fun _ _ _ => 0) tt []) H).
Defined.

Lemma batches_keep_printed (n L : nat) (OptState : Type)
    (opt_step : OptState -> (Tensor -> Result R) -> Tensor
                -> Result (Tensor * OptState))
    (bl : list (list Sample)) :
  forall st st1 : TrainState OptState,
    foldM (batch_step n L OptState opt_step) bl st = Ok st1 ->
    printed OptState st1 = printed OptState st.
Proof.
  induction bl as [|b bl IH]; intros st st1 H; simpl in H.
  - injection H as <-. reflexivity.
  - unfold batch_step at 1 in H.
    destruct (opt_step (opt_of OptState st) (fun w => cost_fn n L w b)
                (weights_of OptState st)) as [r|e]; simpl in H;
      [|discriminate].
    rewrite (IH _ _ H). reflexivity.
Qed.

(** X13: the loss reported after an epoch is measured on the first
    mini-batch.  With a positive batch size and a non-empty training set,
    whenever the body of the epoch loop returns: the mini-batches of the
    epoch start with the non-empty leading slice X[:batch_size]; the
    optimizer steps over all mini-batches lead to a state st1; the line the
    epoch appends to the printed lines is the epoch's number with the value
    [cost_fn] returns on that first mini-batch at the weights of st1; and
    the state returned has the weights and optimizer state of st1. *)
Theorem reported_loss_uses_first_batch (n L : nat) (OptState : Type)
    (opt_step : OptState -> (Tensor -> Result R) -> Tensor
                -> Result (Tensor * OptState))
    (X : list Sample) (bs : nat) (st st' : TrainState OptState)
    (epoch : nat) :
  (0 < bs)%nat -> (0 < length X)%nat ->
  train_epoch n L OptState opt_step X bs st epoch = Ok st' ->
  exists (first : list Sample) (rest : list (list Sample))
         (st1 : TrainState OptState) (loss : R),
    epoch_batches epoch X bs = Ok (first :: rest) /\
    first = slice X 0 bs /\ first <> [] /\
    foldM (batch_step n L OptState opt_step) (first :: rest) st = Ok st1 /\
    cost_fn n L (weights_of OptState st1) first = Ok loss /\
    printed OptState st'
    = printed OptState st ++ [((epoch + 1)%nat, loss)] /\
    weights_of OptState st' = weights_of OptState st1 /\
    opt_of OptState st' = opt_of OptState st1.
Proof.
  intros Hbs HX Hrun.
  pose proof (epoch_batches_ok epoch X bs Hbs) as Hbl.
  pose proof (n_batches_cover (length X) bs Hbs) as Hc.
  destruct ((length X + bs - 1) / bs)%nat as [|m] eqn:E; [simpl in Hc; lia|].
  change (seq 0 (S m)) with (0%nat :: seq 1 m) in Hbl.
  cbn [map] in Hbl.
  change (slice X (0 * bs) (0 * bs + bs)) with (slice X 0 bs) in Hbl.
  set (rest := map (fun j => slice X (j * bs) (j * bs + bs)) (seq 1 m))
    in *.
  unfold train_epoch in Hrun. rewrite Hbl in Hrun. cbn [bind] in Hrun.
  destruct (foldM (batch_step n L OptState opt_step)
              (slice X 0 bs :: rest) st) as [st1|e] eqn:F;
    [|discriminate].
  cbn [bind] in Hrun.
  destruct (cost_fn n L (weights_of OptState st1) (slice X 0 bs))
    as [loss|e] eqn:C; [|discriminate].
  cbn [bind] in Hrun. injection Hrun as <-.
  exists (slice X 0 bs), rest, st1, loss.
  split; [exact Hbl|]. split; [reflexivity|].
  split; [apply leading_slice_nonempty; assumption|].
  split; [exact F|]. split; [exact C|].
  cbn [printed weights_of opt_of].
  rewrite (batches_keep_printed n L OptState opt_step _ _ _ F).
  split; [reflexivity|]. split; reflexivity.
Qed.

Lemma reported_loss_uses_first_batch_witness :
  (0 < 16)%nat /\ (0 < length [[0; 0; 0; 0]])%nat /\
  train_epoch 4 4 unit (fun s _ w => Ok (w, s)) [[0; 0; 0; 0]] 16
    (mkTrainState unit (fun _ _ _ => 0) tt []) 0
  = Ok (mkTrainState unit (fun _ _ _ => 0) tt
          [(1%nat, cost_value 4 4 (fun _ _ _ => 0) [[0; 0; 0; 0]])]) /\
  exists (first : list Sample) (rest : list (list Sample))
         (st1 : TrainState unit) (loss : R),
    epoch_batches 0 [[0; 0; 0; 0]] 16 = Ok (first :: rest) /\
    first = slice [[0; 0; 0; 0]] 0 16 /\ first <> [] /\
    foldM (batch_step 4 4 unit (fun s _ w => Ok (w, s))) (first :: rest)
          (mkTrainState unit (fun _ _ _ => 0) tt []) = Ok st1 /\
    cost_fn 4 4 (weights_of unit st1) first = Ok loss /\
    printed unit
      (mkTrainState unit (fun _ _ _ => 0) tt
         [(1%nat, cost_value 4 4 (fun _ _ _ => 0) [[0; 0; 0; 0]])])
    = printed unit (mkTrainState unit (fun _ _ _ => 0) tt [])
      ++ [((0 + 1)%nat, loss)] /\
    weights_of unit
      (mkTrainState unit (fun _ _ _ => 0) tt
         [(1%nat, cost_value 4 4 (fun _ _ _ => 0) [[0; 0; 0; 0]])])
    = weights_of unit st1 /\
    opt_of unit
      (mkTrainState unit (fun _ _ _ => 0) tt
         [(1%nat, cost_value 4 4 (fun _ _ _ => 0) [[0; 0; 0; 0]])])
    = opt_of unit st1.
Proof.
  assert (H1 : (0 < 16)%nat) by lia.
  assert (H2 : (0 < length [[0; 0; 0; 0]])%nat) by (simpl; lia).
  assert (H3 : train_epoch 4 4 unit (fun s _ w => Ok (w, s))
                 [[0; 0; 0; 0]] 16
                 (mkTrainState unit (fun _ _ _ => 0) tt []) 0
               = Ok (mkTrainState unit (fun _ _ _ => 0) tt
                       [(1%nat,
                         cost_value 4 4 (fun _ _ _ => 0) [[0; 0; 0; 0]])]))
    by reflexivity.
  split; [exact H1|]. split; [exact H2|]. split; [exact H3|].
  exact (reported_loss_uses_first_batch 4 4 unit (fun s _ w => Ok (w, s))
           [[0; 0; 0; 0]] 16 _ _ 0 H1 H2 H3).
Defined.

(** ** Thresholds and metrics *)

Lemma flag_mono (p T T' : R) :
  T <= T' -> flag p T = true -> flag p T' = true.
Proof.
  intros HT H. apply flag_true_iff in H. apply flag_true_iff. lra.
Qed.

Lemma y_pred_flags_mono (p0 : list R) (T T' : R) :
  T <= T' ->
  Forall2 (fun a b => a = true -> b = true) (y_pred p0 T) (y_pred p0 T').
Proof.
  intros HT. unfold y_pred.
  induction p0 as [|p p0 IH]; simpl; constructor.
  - apply flag_mono. exact HT.
  - exact IH.
Qed.

(** X14: raising the threshold never clears a flag: for thresholds
    T <= T' every sample flagged at T is flagged at T', and the prediction
    vector has one entry per fidelity. *)
Theorem y_pred_monotone (p0 : list R) (T T' : R) :
  T <= T' ->
  length (y_pred p0 T) = length p0 /\
  Forall2 (fun a b => a = true -> b = true) (y_pred p0 T) (y_pred p0 T').
Proof.
  intros HT. split; [apply length_map|].
  apply y_pred_flags_mono. exact HT.
Qed.

Lemma y_pred_monotone_witness :
  5 / 10 <= 6 / 10 /\
  length (y_pred [9 / 10; 55 / 100; 1 / 10] (5 / 10))
  = length [9 / 10; 55 / 100; 1 / 10] /\
  Forall2 (fun a b => a = true -> b = true)
          (y_pred [9 / 10; 55 / 100; 1 / 10] (5 / 10))
          (y_pred [9 / 10; 55 / 100; 1 / 10] (6 / 10)).
Proof.
  assert (H : 5 / 10 <= 6 / 10) by lra.
  split; [exact H|].
  exact (y_pred_monotone [9 / 10; 55 / 100; 1 / 10] (5 / 10) (6 / 10) H).
Defined.

Lemma count_pairs_cons (t p a b : bool) (y yh : list bool) :
  count_pairs t p (a :: y) (b :: yh)
  = ((if Bool.eqb a t && Bool.eqb b p then 1 else 0)
     + count_pairs t p y yh)%nat.
Proof.
  unfold count_pairs. simpl.
  destruct (Bool.eqb a t && Bool.eqb b p); reflexivity.
Qed.

Lemma class_total (t : bool) (y yh : list bool) :
  length y = length yh ->
  (count_pairs t true y yh + count_pairs t false y yh
   = count_occ bool_dec y t)%nat.
Proof.
  revert yh. induction y as [|a y IH]; intros [|b yh] Hlen;
    try discriminate; [reflexivity|].
  rewrite !count_pairs_cons. simpl count_occ.
  injection Hlen as Hlen. specialize (IH yh Hlen).
  destruct (bool_dec a t) as [->|Hne].
  - rewrite Bool.eqb_reflx. destruct b; simpl; lia.
  - assert (Bool.eqb a t = false) by (apply Bool.eqb_false_iff; exact Hne).
    rewrite H. simpl. lia.
Qed.

Lemma count_occ_bool (y : list bool) :
  (count_occ bool_dec y true + count_occ bool_dec y false = length y)%nat.
Proof.
  induction y as [|[|] y IH]; simpl; lia.
Qed.

Lemma confusion_total (y yh : list bool) :
  length y = length yh ->
  (count_pairs false false y yh + count_pairs false true y yh
   + count_pairs true false y yh + count_pairs true true y yh
   = length y)%nat.
Proof.
  intros H.
  pose proof (class_total true y yh H).
  pose proof (class_total false y yh H).
  pose proof (count_occ_bool y). lia.
Qed.

(** X15: the confusion counts account for every sample.  For label vectors
    of one length the four counts of the report add up to the number of
    samples, TP + FN is the number of samples whose true label is 1, and
    TN + FP the number whose true label is 0. *)
Theorem confusion_counts_total (y yh : list bool) :
  length y = length yh ->
  exists m : Metrics,
    metrics y yh = Ok m /\
    (TN m + FP m + FN m + TP m = length y)%nat /\
    (TP m + FN m = count_occ bool_dec y true)%nat /\
    (TN m + FP m = count_occ bool_dec y false)%nat.
Proof.
  intros H. eexists. split; [apply metrics_ok; exact H|].
  cbn [TN FP FN TP].
  pose proof (class_total true y yh H).
  pose proof (class_total false y yh H).
  pose proof (confusion_total y yh H). lia.
Qed.

Lemma confusion_counts_total_witness :
  length [false; true; true] = length [true; true; false] /\
  exists m : Metrics,
    metrics [false; true; true] [true; true; false] = Ok m /\
    (TN m + FP m + FN m + TP m = length [false; true; true])%nat /\
    (TP m + FN m = count_occ bool_dec [false; true; true] true)%nat /\
    (TN m + FP m = count_occ bool_dec [false; true; true] false)%nat.
Proof.
  assert (H : length [false; true; true] = length [true; true; false])
    by reflexivity.
  split; [exact H|].
  exact (confusion_counts_total [false; true; true] [true; true; false] H).
Defined.

Lemma ratio_bounds (num den : nat) :
  (num <= den)%nat -> 0 <= guarded_ratio num den <= 1.
Proof.
  intros H. unfold guarded_ratio.
  destruct (Nat.eqb_spec den 0) as [E|E]; [lra|].
  assert (Hd : 0 < INR den) by (apply lt_0_INR; lia).
  assert (Hn : 0 <= INR num) by apply pos_INR.
  assert (Hle : INR num <= INR den) by (apply le_INR; exact H).
  split.
  - unfold Rdiv. apply Rmult_le_pos; [exact Hn|].
    left. apply Rinv_0_lt_compat. exact Hd.
  - apply Rmult_le_reg_r with (INR den); [exact Hd|].
    unfold Rdiv. rewrite Rmult_assoc, Rinv_l by lra. lra.
Qed.

Lemma ratio_mono (num num' den : nat) :
  (num <= num')%nat -> guarded_ratio num den <= guarded_ratio num' den.
Proof.
  intros H. unfold guarded_ratio.
  destruct (Nat.eqb_spec den 0) as [E|E]; [lra|].
  assert (Hd : 0 < INR den) by (apply lt_0_INR; lia).
  assert (Hle : INR num <= INR num') by (apply le_INR; exact H).
  unfold Rdiv. apply Rmult_le_compat_r; [|exact Hle].
  left. apply Rinv_0_lt_compat. exact Hd.
Qed.

Lemma sqrt_between (r s : R) :
  0 <= r -> 0 <= s -> Rmin r s <= sqrt (r * s) <= Rmax r s.
Proof.
  intros Hr Hs.
  assert (W : forall a b, 0 <= a -> a <= b ->
                          a <= sqrt (a * b) <= b).
  { intros a b Ha Hab. split.
    - rewrite <- (sqrt_square a Ha) at 1.
      apply sqrt_le_1; nra.
    - rewrite <- (sqrt_square b) at 2 by lra.
      apply sqrt_le_1; nra. }
  destruct (Rle_dec r s) as [H|H].
  - rewrite Rmin_left, Rmax_right by lra. apply W; assumption.
  - rewrite Rmin_right, Rmax_left by lra.
    rewrite Rmult_comm. apply W; lra.
Qed.

(** X16: the report stays in range.  For label vectors of one length,
    precision, recall, F1, specificity and the geometric mean are numbers;
    the first four lie in [0, 1], so does accuracy, a number too, when there
    is at least one sample, and the geometric mean lies between the smaller
    and the larger of recall and specificity, hence in [0, 1] too. *)
Theorem metrics_in_range (y yh : list bool) :
  length y = length yh ->
  exists (m : Metrics) (prec rec f1 spec g : R),
    metrics y yh = Ok m /\
    Precision m = Num prec /\ Recall m = Num rec /\ F1 m = Num f1 /\
    Specificity m = Num spec /\ Gmean m = Num g /\
    0 <= prec <= 1 /\ 0 <= rec <= 1 /\ 0 <= f1 <= 1 /\
    0 <= spec <= 1 /\
    (length y <> 0%nat ->
       exists acc, Accuracy m = Num acc /\ 0 <= acc <= 1) /\
    Rmin rec spec <= g <= Rmax rec spec /\
    0 <= g <= 1.
Proof.
  intros H. eexists. do 5 eexists.
  split; [apply metrics_ok; exact H|].
  cbn [Accuracy Precision Recall F1 Specificity Gmean].
  split; [reflexivity|]. split; [reflexivity|]. split; [reflexivity|].
  split; [reflexivity|]. split; [reflexivity|].
  pose proof (confusion_total y yh H) as Htot.
  set (tn := count_pairs false false y yh) in *.
  set (fp := count_pairs false true y yh) in *.
  set (fn := count_pairs true false y yh) in *.
  set (tp := count_pairs true true y yh) in *.
  assert (Hrec : 0 <= guarded_ratio tp (tp + fn) <= 1)
    by (apply ratio_bounds; lia).
  assert (Hspec : 0 <= guarded_ratio tn (tn + fp) <= 1)
    by (apply ratio_bounds; lia).
  pose proof (sqrt_between _ _ (proj1 Hrec) (proj1 Hspec)) as Hg.
  split; [apply ratio_bounds; lia|].
  split; [exact Hrec|].
  split; [apply ratio_bounds; lia|].
  split; [exact Hspec|].
  split.
  { intros Hne. exists (guarded_ratio (tn + tp) (length y)). split.
    - unfold np_div, guarded_ratio.
      destruct (Nat.eqb_spec (length y) 0); [contradiction | reflexivity].
    - apply ratio_bounds. lia. }
  split; [exact Hg|].
  split.
  - apply sqrt_pos.
  - destruct Hg as [_ Hg]. eapply Rle_trans; [exact Hg|].
    apply Rmax_lub; lra.
Qed.

Lemma metrics_in_range_witness :
  length [false; true; true] = length [true; true; false] /\
  exists (m : Metrics) (prec rec f1 spec g : R),
    metrics [false; true; true] [true; true; false] = Ok m /\
    Precision m = Num prec /\ Recall m = Num rec /\ F1 m = Num f1 /\
    Specificity m = Num spec /\ Gmean m = Num g /\
    0 <= prec <= 1 /\ 0 <= rec <= 1 /\ 0 <= f1 <= 1 /\
    0 <= spec <= 1 /\
    (length [false; true; true] <> 0%nat ->
       exists acc, Accuracy m = Num acc /\ 0 <= acc <= 1) /\
    Rmin rec spec <= g <= Rmax rec spec /\
    0 <= g <= 1.
Proof.
  assert (H : length [false; true; true] = length [true; true; false])
    by reflexivity.
  split; [exact H|].
  exact (metrics_in_range [false; true; true] [true; true; false] H).
Defined.

(** ** The report of [metrics] *)




Lemma count_pairs_flag_mono (t : bool) (yh yh' : list bool) :
  Forall2 (fun a b => a = true -> b = true) yh yh' ->
  forall y, (count_pairs t true y yh <= count_pairs t true y yh')%nat.
Proof.
  induction 1 as [|a b yh yh' Hab _ IH]; intros y.
  - destruct y; apply Nat.le_refl.
  - destruct y as [|c y]; [apply Nat.le_refl|].
    rewrite !count_pairs_cons. specialize (IH y).
    destruct a.
    + rewrite (Hab eq_refl). lia.
    + destruct (Bool.eqb c t), b; simpl; lia.
Qed.

(** X17: the trade-off between thresholds.  For a label vector and a
    fidelity vector of one length and thresholds T <= T', both reports
    exist, with recall and specificity numbers; going from T to T' the true
    positives and the false positives do not decrease, the false negatives
    and the true negatives do not increase, recall does not decrease and
    specificity does not increase. *)
Theorem threshold_tradeoff (y : list bool) (p0 : list R) (T T' : R) :
  length y = length p0 -> T <= T' ->
  exists (m m' : Metrics) (rec rec' spec spec' : R),
    metrics y (y_pred p0 T) = Ok m /\
    metrics y (y_pred p0 T') = Ok m' /\
    (TP m <= TP m')%nat /\ (FP m <= FP m')%nat /\
    (FN m' <= FN m)%nat /\ (TN m' <= TN m)%nat /\
    Recall m = Num rec /\ Recall m' = Num rec' /\ rec <= rec' /\
    Specificity m = Num spec /\ Specificity m' = Num spec' /\
    spec' <= spec.
Proof.
  intros Hlen HT.
  pose proof (y_pred_flags_mono p0 T T' HT) as HF.
  assert (H1 : length y = length (y_pred p0 T))
    by (unfold y_pred; rewrite length_map; exact Hlen).
  assert (H2 : length y = length (y_pred p0 T'))
    by (unfold y_pred; rewrite length_map; exact Hlen).
  eexists. eexists. do 4 eexists.
  split; [apply metrics_ok; exact H1|].
  split; [apply metrics_ok; exact H2|].
  cbn [TN FP FN TP Recall Specificity].
  pose proof (count_pairs_flag_mono true _ _ HF y) as Mtp.
  pose proof (count_pairs_flag_mono false _ _ HF y) as Mfp.
  pose proof (class_total true y _ H1) as P1.
  pose proof (class_total true y _ H2) as P2.
  pose proof (class_total false y _ H1) as N1.
  pose proof (class_total false y _ H2) as N2.
  split; [exact Mtp|]. split; [exact Mfp|].
  split; [lia|]. split; [lia|].
  split; [reflexivity|]. split; [reflexivity|].
  split.
  { replace (count_pairs true true y (y_pred p0 T')
             + count_pairs true false y (y_pred p0 T'))%nat
      with (count_pairs true true y (y_pred p0 T)
            + count_pairs true false y (y_pred p0 T))%nat by lia.
    apply ratio_mono. exact Mtp. }
  split; [reflexivity|]. split; [reflexivity|].
  replace (count_pairs false false y (y_pred p0 T)
           + count_pairs false true y (y_pred p0 T))%nat
    with (count_pairs false false y (y_pred p0 T')
          + count_pairs false true y (y_pred p0 T'))%nat by lia.
  apply ratio_mono. lia.
Qed.

Lemma threshold_tradeoff_witness :
  length [false; false; true]
  = length [9 / 10; 55 / 100; 1 / 10] /\
  5 / 10 <= 6 / 10 /\
  exists (m m' : Metrics) (rec rec' spec spec' : R),
    metrics [false; false; true]
            (y_pred [9 / 10; 55 / 100; 1 / 10] (5 / 10)) = Ok m /\
    metrics [false; false; true]
            (y_pred [9 / 10; 55 / 100; 1 / 10] (6 / 10)) = Ok m' /\
    (TP m <= TP m')%nat /\ (FP m <= FP m')%nat /\
    (FN m' <= FN m)%nat /\ (TN m' <= TN m)%nat /\
    Recall m = Num rec /\ Recall m' = Num rec' /\ rec <= rec' /\
    Specificity m = Num spec /\ Specificity m' = Num spec' /\
    spec' <= spec.
Proof.
  assert (H1 : length [false; false; true]
               = length [9 / 10; 55 / 100; 1 / 10]) by reflexivity.
  assert (H2 : 5 / 10 <= 6 / 10) by lra.
  split; [exact H1|]. split; [exact H2|].
  exact (threshold_tradeoff [false; false; true]
           [9 / 10; 55 / 100; 1 / 10] (5 / 10) (6 / 10) H1 H2).
Defined.

Lemma count_pairs_diag (t p : bool) (y : list bool) :
  t <> p -> count_pairs t p y y = 0%nat.
Proof.
  intros Hne. induction y as [|a y IH]; [reflexivity|].
  rewrite count_pairs_cons, IH.
  destruct a, t, p; simpl; congruence.
Qed.

Lemma ratio_same (num : nat) : num <> 0%nat -> guarded_ratio num num = 1.
Proof.
  intros H. unfold guarded_ratio.
  destruct (Nat.eqb_spec num 0); [contradiction|].
  field. apply not_0_INR. exact H.
Qed.

(** X18: a perfect prediction.  When the predicted labels are the true
    labels there is no false positive and no false negative; accuracy is 1
    on a non-empty vector; precision, recall and F1 are 1 when there is a
    positive sample and specificity is 1 when there is a negative one; but
    with no positive sample (or no negative one) recall (or specificity) is
    the zero-division value 0 and the geometric mean is 0. *)
Theorem perfect_prediction_report (y : list bool) :
  exists m : Metrics,
    metrics y y = Ok m /\
    FP m = 0%nat /\ FN m = 0%nat /\
    (length y <> 0%nat -> Accuracy m = Num 1) /\
    (TP m <> 0%nat ->
       Precision m = Num 1 /\ Recall m = Num 1 /\ F1 m = Num 1) /\
    (TN m <> 0%nat -> Specificity m = Num 1) /\
    (TP m <> 0%nat -> TN m <> 0%nat -> Gmean m = Num 1) /\
    (TP m = 0%nat \/ TN m = 0%nat -> Gmean m = Num 0).
Proof.
  eexists. split; [apply metrics_ok; reflexivity|].
  cbn [TN FP FN TP Accuracy Precision Recall F1 Specificity Gmean].
  pose proof (confusion_total y y eq_refl) as Htot.
  rewrite !(count_pairs_diag false true), !(count_pairs_diag true false)
    in * by discriminate.
  set (tn := count_pairs false false y y) in *.
  set (tp := count_pairs true true y y) in *.
  rewrite !Nat.add_0_r in *.
  split; [reflexivity|]. split; [reflexivity|].
  split.
  { intros Hne. unfold np_div.
    destruct (Nat.eqb_spec (length y) 0); [contradiction|].
    f_equal. replace (tn + tp)%nat with (length y) by lia.
    field. apply not_0_INR. exact Hne. }
  split.
  { intros Htp. repeat split; f_equal; apply ratio_same; lia. }
  split; [intros Htn; f_equal; apply ratio_same; exact Htn|].
  split.
  { intros Htp Htn. f_equal. rewrite !ratio_same by assumption.
    rewrite Rmult_1_r. apply sqrt_1. }
  intros [E|E]; rewrite E; f_equal.
  - unfold guarded_ratio at 1. simpl. rewrite Rmult_0_l. apply sqrt_0.
  - unfold guarded_ratio at 2. simpl. rewrite Rmult_0_r. apply sqrt_0.
Qed.
